(** * dslToPng render server: [renderHtml.js] and [server.js]

    A shallow embedding of the two JavaScript modules of the render
    server and the properties of its specification that concern them.

    - [Js]        the fragment of JavaScript the modules rely on: JSON
                  values as produced by [express.json()], property access,
                  [ToBoolean], [ToString], [String.prototype.trim],
                  [Buffer.toString("base64")];
    - [RenderHtml] [renderDSLtoHTML] and its inner [renderElement];
    - [Server]    the [POST /render] handler as a program over the
                  awaited puppeteer calls, an operational model of the
                  browser it talks to, and an interleaving scheduler for
                  concurrent requests;
    - [DemoUtils] the state kept by the [ProgressBar] and [EventLogger]
                  components of the demo utilities of the client. *)

From Stdlib Require Import String Ascii List ZArith Lia Bool Arith.
From Stdlib Require Import DecimalString DecimalZ.
From Stdlib Require QArith Qround.
Import ListNotations.
Local Open Scope string_scope.

(* ================================================================== *)
(** * The JavaScript fragment *)

Module Js.

(** Exceptions.  [TypeError] is what the language raises on a property
    access on [null], on a call of a non-function and on a failed
    conversion to a primitive; [BrowserError] stands for the rejection of
    an awaited puppeteer promise. *)
Inductive exn : Type :=
| TypeError
| BrowserError.

Inductive result (A : Type) : Type :=
| Ok (a : A)
| Throw (e : exn).
Arguments Ok {A} a.
Arguments Throw {A} e.

Definition bind {A B : Type} (r : result A) (k : A -> result B) : result B :=
  match r with
  | Ok a => k a
  | Throw e => Throw e
  end.

Notation "x <- r ;; k" := (bind r (fun x => k))
  (at level 61, r at next level, right associativity).

(** ** Characters that cannot be written inside a string literal *)

Definition nl : string := String (ascii_of_nat 10) EmptyString.
Definition dq : string := String (ascii_of_nat 34) EmptyString.

(** ** Numbers

    A JSON number is an IEEE double.  The modules only ever convert a
    number to a string, test it for truthiness, or hand it to the browser,
    so a number type is anything that offers these two observations.
    [num_lit z] is the number denoted by the integer literal [z] of the
    source text.  The two laws hold of doubles: integer literals in the
    exactly representable range print as their decimal digits, and ["0"]
    is printed for [+0] and [-0] only, which are falsy. *)
Definition decimal (z : Z) : string := NilZero.string_of_int (Z.to_int z).

Class JsNumber (num : Type) : Type := {
  num_to_string : num -> string;
  num_falsy : num -> bool;
  num_lit : Z -> num;
  num_lit_string : forall z, (Z.abs z <= 2 ^ 53)%Z ->
                             num_to_string (num_lit z) = decimal z;
  num_zero_falsy : forall n, num_to_string n = "0" -> num_falsy n = true
}.

(** Integer-valued numbers, printed in decimal. *)
#[export, refine] Instance Z_JsNumber : JsNumber Z := {|
  num_to_string := decimal;
  num_falsy := fun z => (z =? 0)%Z;
  num_lit := fun z => z;
  num_lit_string := fun z _ => eq_refl;
  num_zero_falsy := _
|}.
Proof.
  intros z E. apply Z.eqb_eq.
  unfold decimal in E.
  rewrite <- (DecimalZ.of_to z).
  destruct (Z.to_int z) as [d|d]; simpl in E; [|discriminate E].
  destruct d; try reflexivity;
    match type of E with
    | NilZero.string_of_uint ?u = _ =>
        assert (P : NilZero.uint_of_string (NilZero.string_of_uint u)
                    = Some u) by (apply NilZero.usu; discriminate);
        rewrite E in P; vm_compute in P; now inversion P
    end.
Defined.

(** ** Values

    What [JSON.parse] can return: the request body and everything reached
    from it.  An object keeps its members in the order of the text;
    [JSON.parse] lets a later member with the same key replace an earlier
    one, which is what [get_own] implements.  A property that is absent
    reads as [undefined], modelled by [None]. *)
Unset Elimination Schemes.
Inductive value (num : Type) : Type :=
| VNull
| VBool (b : bool)
| VNum (n : num)
| VStr (s : string)
| VArr (items : list (value num))
| VObj (props : list (string * value num)).
Set Elimination Schemes.
Arguments VNull {num}.
Arguments VBool {num} b.
Arguments VNum {num} n.
Arguments VStr {num} s.
Arguments VArr {num} items.
Arguments VObj {num} props.

Fixpoint get_own {A : Type} (k : string) (props : list (string * A))
  : option A :=
  match props with
  | [] => None
  | (k', v) :: rest =>
      match get_own k rest with
      | Some v' => Some v'
      | None => if (k =? k')%string then Some v else None
      end
  end.

Section Values.
Context {num : Type} `{JsNumber num}.

(** [v.k] for [v] other than [null].  The modules read the properties
    [width height elements css x y style background color fontSize
    fontWeight class type label text placeholder] only; none of them is a
    built-in property of a string, number, boolean or array, so on those
    the access yields [undefined]. *)
Definition get (v : value num) (k : string) : option (value num) :=
  match v with
  | VObj props => get_own k props
  | _ => None
  end.

(** [o?.k]: short-circuits to [undefined] on [undefined] and [null]. *)
Definition get_opt (o : option (value num)) (k : string)
  : option (value num) :=
  match o with
  | None | Some VNull => None
  | Some v => get v k
  end.

(** [ToBoolean]. *)
Definition truthy (o : option (value num)) : bool :=
  match o with
  | None | Some VNull => false
  | Some (VBool b) => b
  | Some (VNum n) => negb (num_falsy n)
  | Some (VStr s) => negb (s =? "")%string
  | Some (VArr _) | Some (VObj _) => true
  end.

(** [o || d]. *)
Definition or_else (o : option (value num)) (d : value num) : value num :=
  match o with
  | Some v => if truthy o then v else d
  | None => d
  end.

(** [ToString], as applied by template literals.  An array prints its
    items separated by commas, [null] items as the empty string.  A plain
    object prints as ["[object Object]"] through [Object.prototype];
    when it has a member named [toString] of its own, that member (a JSON
    value, never a function) hides the inherited method, [valueOf] cannot
    produce a primitive either, and the conversion throws. *)
Fixpoint to_string (v : value num) : result string :=
  match v with
  | VNull => Ok "null"
  | VBool true => Ok "true"
  | VBool false => Ok "false"
  | VNum n => Ok (num_to_string n)
  | VStr s => Ok s
  | VArr items =>
      (fix join (l : list (value num)) : result string :=
         match l with
         | [] => Ok ""
         | x :: rest =>
             s <- match x with VNull => Ok "" | _ => to_string x end ;;
             match rest with
             | [] => Ok s
             | _ :: _ => r <- join rest ;; Ok (s ++ "," ++ r)
             end
         end) items
  | VObj props =>
      match get_own "toString" props with
      | Some _ => Throw TypeError
      | None => Ok "[object Object]"
      end
  end.

Definition to_string_opt (o : option (value num)) : result string :=
  match o with
  | None => Ok "undefined"
  | Some v => to_string v
  end.

End Values.

(** ** Strings *)

(** [String.prototype.trim].  The strings are sequences of bytes (the
    UTF-8 text of the request); the white space recognised here is the
    ASCII part of the language's definition, which is all that can stand
    at either end of the one string the modules trim. *)
Definition is_space (c : ascii) : bool :=
  let n := nat_of_ascii c in
  (((9 <=? n) && (n <=? 13)) || (n =? 32))%nat.

Fixpoint trim_start (s : string) : string :=
  match s with
  | EmptyString => EmptyString
  | String c t => if is_space c then trim_start t else s
  end.

Fixpoint trim_end (s : string) : string :=
  match s with
  | EmptyString => EmptyString
  | String c t =>
      match trim_end t with
      | EmptyString => if is_space c then EmptyString else String c EmptyString
      | t' => String c t'
      end
  end.

Definition trim (s : string) : string := trim_end (trim_start s).

(** A string is [tight] when something is left of it after [trim_end]. *)
Definition tight (s : string) : Prop := trim_end s <> "".

(** [Array.prototype.join] on an array of strings. *)
Fixpoint join (sep : string) (l : list string) : string :=
  match l with
  | [] => ""
  | [s] => s
  | s :: rest => s ++ sep ++ join sep rest
  end.

(** Number of positions of [s] at which [pat] starts. *)
Fixpoint occurrences (pat s : string) : nat :=
  match s with
  | EmptyString => 0
  | String _ t => (if prefix pat s then 1 else 0) + occurrences pat t
  end.

(** [Buffer.prototype.toString("base64")] (RFC 4648, with padding). *)
Definition base64_digit (n : N) : ascii :=
  match String.get (N.to_nat n)
    "ABCDEFGHIJKLMNOPQRSTUVWXYZabcdefghijklmnopqrstuvwxyz0123456789+/" with
  | Some c => c
  | None => "="%char
  end.

Definition sextets (a b c : ascii) : N * N * N * N :=
  let x := (N_of_ascii a * 65536 + N_of_ascii b * 256 + N_of_ascii c)%N in
  (N.shiftr x 18, N.land (N.shiftr x 12) 63,
   N.land (N.shiftr x 6) 63, N.land x 63)%N.

Fixpoint base64 (bytes : string) : string :=
  match bytes with
  | EmptyString => EmptyString
  | String a EmptyString =>
      let '(p, q, _, _) := sextets a zero zero in
      String (base64_digit p) (String (base64_digit q) "==")
  | String a (String b EmptyString) =>
      let '(p, q, r, _) := sextets a b zero in
      String (base64_digit p) (String (base64_digit q)
        (String (base64_digit r) "="))
  | String a (String b (String c rest)) =>
      let '(p, q, r, t) := sextets a b c in
      String (base64_digit p) (String (base64_digit q)
        (String (base64_digit r) (String (base64_digit t) (base64 rest))))
  end.

(** ** Documents that are the same object

    Two values are the same JavaScript value when they are the same
    primitive, arrays of the same items, or objects with the same
    properties: the order in which the members were written, and members
    hidden by a later one of the same key, make no difference. *)
Inductive same_opt {A : Type} (R : A -> A -> Prop)
  : option A -> option A -> Prop :=
| same_none : same_opt R None None
| same_some a b : R a b -> same_opt R (Some a) (Some b).

Unset Elimination Schemes.
Inductive same {num : Type} : value num -> value num -> Prop :=
| same_null : same VNull VNull
| same_bool b : same (VBool b) (VBool b)
| same_num n : same (VNum n) (VNum n)
| same_str s : same (VStr s) (VStr s)
| same_arr l1 l2 : Forall2 same l1 l2 -> same (VArr l1) (VArr l2)
| same_obj p1 p2 :
    (forall k, same_opt same (get_own k p1) (get_own k p2)) ->
    same (VObj p1) (VObj p2).
Set Elimination Schemes.

End Js.

(* ================================================================== *)
(** * renderHtml.js *)

Module RenderHtml.
Import Js.

Section Compiler.
Context {num : Type} `{JsNumber num}.

(** One optional declaration of the inline style: when [el.style?.P] is
    truthy, the text [CSS:] followed by [el.style.P] and the suffix,
    otherwise the empty string. *)
Definition style_part (el : value num) (prop css suffix : string)
  : result string :=
  let v := get_opt (get el "style") prop in
  if truthy v then
    s <- to_string_opt v ;; Ok (css ++ ":" ++ s ++ suffix)
  else Ok "".

(** The [style] constant of [renderElement]. *)
Definition element_style (el : value num) : result string :=
  x <- to_string (or_else (get el "x") (VNum (num_lit 0))) ;;
  y <- to_string (or_else (get el "y") (VNum (num_lit 0))) ;;
  w <- to_string (or_else (get el "width") (VNum (num_lit 100))) ;;
  h <- to_string (or_else (get el "height") (VNum (num_lit 40))) ;;
  bg <- style_part el "background" "background" ";" ;;
  fg <- style_part el "color" "color" ";" ;;
  fs <- style_part el "fontSize" "font-size" "px;" ;;
  fw <- style_part el "fontWeight" "font-weight" ";" ;;
  Ok (trim (nl ++
    "      position:absolute;" ++ nl ++
    "      left:" ++ x ++ "px;" ++ nl ++
    "      top:" ++ y ++ "px;" ++ nl ++
    "      width:" ++ w ++ "px;" ++ nl ++
    "      height:" ++ h ++ "px;" ++ nl ++
    "      " ++ bg ++ nl ++
    "      " ++ fg ++ nl ++
    "      " ++ fs ++ nl ++
    "      " ++ fw ++ nl ++
    "    ")).

(** The [cls] constant of [renderElement]. *)
Definition element_class (el : value num) : result string :=
  let c := get el "class" in
  if truthy c then
    s <- to_string_opt c ;; Ok ("class=" ++ dq ++ s ++ dq)
  else Ok "".

(** [el.type === name] *)
Definition has_type (el : value num) (name : string) : bool :=
  match get el "type" with
  | Some (VStr s) => (s =? name)%string
  | _ => false
  end.

(** The arrow function [renderElement].  Reading [el.x] throws when [el]
    is [null]; [style] and [cls] are computed before the type is looked
    at, so a conversion that throws does so for every type. *)
Definition renderElement (el : value num) : result string :=
  match el with
  | VNull => Throw TypeError
  | _ =>
      style <- element_style el ;;
      cls <- element_class el ;;
      if has_type el "button" then
        label <- to_string (or_else (get el "label") (VStr "Button")) ;;
        Ok ("<button " ++ cls ++ " style=" ++ dq ++ style ++ dq ++ ">"
            ++ label ++ "</button>")
      else if has_type el "text" then
        text <- to_string (or_else (get el "text") (VStr "Text")) ;;
        Ok ("<div " ++ cls ++ " style=" ++ dq ++ style ++ dq ++ ">"
            ++ text ++ "</div>")
      else if has_type el "input" then
        ph <- to_string (or_else (get el "placeholder") (VStr "")) ;;
        Ok ("<input " ++ cls ++ " style=" ++ dq ++ style ++ dq
            ++ " placeholder=" ++ dq ++ ph ++ dq ++ " />")
      else Ok ""
  end.

(** [elements.map(renderElement)] on an array. *)
Fixpoint map_render (els : list (value num)) : result (list string) :=
  match els with
  | [] => Ok []
  | el :: rest =>
      s <- renderElement el ;;
      r <- map_render rest ;;
      Ok (s :: r)
  end.

(** The [body] constant: [elements.map(renderElement).join("\n")].
    Only an array has a [map] method. *)
Definition render_body (elements : option (value num)) : result string :=
  match elements with
  | Some (VArr els) => l <- map_render els ;; Ok (join nl l)
  | _ => Throw TypeError
  end.

(** The text of the returned template up to the interpolation of [css],
    and from there on. *)
Definition html_head (width height : string) : string :=
  nl ++
  "    <!DOCTYPE html>" ++ nl ++
  "    <html>" ++ nl ++
  "    <head>" ++ nl ++
  "      <meta charset=" ++ dq ++ "utf-8" ++ dq ++ " />" ++ nl ++
  "      <style>" ++ nl ++
  "        body {" ++ nl ++
  "          margin: 0;" ++ nl ++
  "          position: relative;" ++ nl ++
  "          width: " ++ width ++ "px;" ++ nl ++
  "          height: " ++ height ++ "px;" ++ nl ++
  "        }" ++ nl ++
  "        ".

Definition html_tail (body : string) : string :=
  nl ++
  "      </style>" ++ nl ++
  "    </head>" ++ nl ++
  "    <body>" ++ nl ++
  "      " ++ body ++ nl ++
  "    </body>" ++ nl ++
  "    </html>" ++ nl ++
  "  ".

(** [renderDSLtoHTML({ width, height, elements, css })].  The parameter
    is destructured, which throws on [null]. *)
Definition renderDSLtoHTML (doc : value num) : result string :=
  match doc with
  | VNull => Throw TypeError
  | _ =>
      body <- render_body (get doc "elements") ;;
      width <- to_string_opt (get doc "width") ;;
      height <- to_string_opt (get doc "height") ;;
      css <- to_string_opt (get doc "css") ;;
      Ok (html_head width height ++ css ++ html_tail body)
  end.

(** What the four box properties come to when they are numbers or
    absent: the number as printed, or the default when the property is
    absent or the number is falsy. *)
Definition numeric (o : option (value num)) : bool :=
  match o with
  | None | Some (VNum _) => true
  | _ => false
  end.

Definition px (o : option (value num)) (default : Z) : string :=
  match o with
  | Some (VNum n) => if num_falsy n then decimal default else num_to_string n
  | _ => decimal default
  end.

(** The element types [renderElement] has a branch for. *)
Definition recognized (el : value num) : bool :=
  has_type el "button" || has_type el "text" || has_type el "input".

(** An element with its [children] member taken away. *)
Definition without_children (el : value num) : value num :=
  match el with
  | VObj props =>
      VObj (filter (fun kv => negb (fst kv =? "children")%string) props)
  | _ => el
  end.

End Compiler.

(** The button of the user guide, over integers. *)
Definition click_me_layout : value Z :=
  VObj [("x", VNum 150%Z); ("y", VNum 80%Z);
        ("width", VNum 100%Z); ("height", VNum 40%Z)].

Definition click_me_doc : value Z :=
  VObj [("width", VNum 400%Z); ("height", VNum 200%Z);
        ("elements", VArr [
           VObj [("type", VStr "button");
                 ("layout", click_me_layout);
                 ("label", VStr "Click Me!")]])].

(** The same button with its box on the element itself. *)
Definition click_me_flat : value Z :=
  VObj [("type", VStr "button"); ("x", VNum 150%Z); ("y", VNum 80%Z);
        ("width", VNum 100%Z); ("height", VNum 40%Z);
        ("label", VStr "Click Me!")].

(** A container holding a button. *)
Definition inner_button : value Z :=
  VObj [("type", VStr "button"); ("x", VNum 5%Z); ("y", VNum 5%Z);
        ("label", VStr "Inside")].

Definition panel : value Z :=
  VObj [("type", VStr "container"); ("x", VNum 10%Z); ("y", VNum 10%Z);
        ("width", VNum 300%Z); ("height", VNum 150%Z);
        ("children", VArr [inner_button])].

Definition panel_doc : value Z :=
  VObj [("width", VNum 400%Z); ("height", VNum 200%Z);
        ("elements", VArr [panel]); ("css", VStr "")].

(** The same document written with its members in another order, and
    with a member that a later one replaces. *)
Definition click_me_reordered : value Z :=
  VObj [("width", VNum 1%Z);
        ("elements", VArr [
           VObj [("label", VStr "Click Me!");
                 ("layout", click_me_layout);
                 ("type", VStr "button")]]);
        ("height", VNum 200%Z); ("width", VNum 400%Z)].

(** A document with custom CSS, and a button whose label and class hold
    markup. *)
Definition styled_doc : value Z :=
  VObj [("width", VNum 400%Z); ("height", VNum 200%Z);
        ("elements", VArr []);
        ("css", VStr "body { background: #fff !important; }")].

Definition markup_button : value Z :=
  VObj [("type", VStr "button");
        ("class", VStr ("a" ++ dq ++ " onclick=" ++ dq ++ "run()"));
        ("label", VStr "</button><script>alert(1)</script>")].

(** The properties [renderElement] reads from an element, and from its
    [style]. *)
Definition element_reads : list string :=
  ["x"; "y"; "width"; "height"; "class"; "type"; "label"; "text";
   "placeholder"].

Definition style_reads : list string :=
  ["background"; "color"; "fontSize"; "fontWeight"].

(** The button of the README, with members the compiler has no use for,
    and what is left of it when they are taken away. *)
Definition readme_button : value Z :=
  VObj [("type", VStr "button");
        ("layout", VObj [("x", VNum 100%Z); ("y", VNum 100%Z);
                         ("width", VNum 200%Z); ("height", VNum 50%Z)]);
        ("label", VStr "Click Me");
        ("style", VObj [("background", VStr "#007bff");
                        ("color", VStr "white");
                        ("border_radius", VStr "5px")])].

Definition readme_button_read : value Z :=
  VObj [("type", VStr "button");
        ("label", VStr "Click Me");
        ("style", VObj [("background", VStr "#007bff");
                        ("color", VStr "white")])].

(** A button without a label and with a box given in percent. *)
Definition bare_button : value Z :=
  VObj [("type", VStr "button"); ("label", VStr "");
        ("width", VStr "50%"); ("style", VNull)].

(** An input whose width is the string ["0"]. *)
Definition thin_input : value Z :=
  VObj [("type", VStr "input"); ("width", VStr "0")].

End RenderHtml.

(* ================================================================== *)
(** * server.js *)

Module Server.
Import Js RenderHtml.

(** [process.env.BROWSERLESS_ENDPOINT || "ws://localhost:3000"] *)
Definition BROWSERLESS_ENDPOINT (env : option string) : string :=
  match env with
  | Some s => if (s =? "")%string then "ws://localhost:3000" else s
  | None => "ws://localhost:3000"
  end.

(** The endpoint when the variable is not set. *)
Definition local_endpoint : string := BROWSERLESS_ENDPOINT None.

(** Handles handed out by puppeteer. *)
Definition browser : Type := nat.
Definition page : Type := nat.

Section Handler.
Context {num : Type} `{JsNumber num}.

(** The puppeteer calls the handler awaits, indexed by what the promise
    resolves to. *)
Inductive op : Type -> Type :=
| Connect (browserWSEndpoint : string) : op browser
| NewPage (b : browser) : op page
| SetViewport (p : page) (width height : value num) : op unit
| SetContent (p : page) (html : string) : op unit
| Screenshot (p : page) : op string
| ClosePage (p : page) : op unit.

(** An [async] function body: it returns, throws, or awaits a call and
    goes on with the value of the promise.  An awaited rejection is
    rethrown at the [await]; the handler has no [try], so it ends the
    invocation. *)
Inductive prog (A : Type) : Type :=
| Done (a : A)
| Fail (e : exn)
| Await (X : Type) (o : op X) (k : X -> prog A).
Arguments Done {A} a.
Arguments Fail {A} e.
Arguments Await {A X} o k.

(** The destructuring of [req.body] with its defaults, and the object
    literal passed to [renderDSLtoHTML]. *)
Definition field (body : value num) (k : string) (default : value num)
  : value num :=
  match get body k with
  | Some v => v
  | None => default
  end.

Definition req_width (body : value num) : value num :=
  field body "width" (VNum (num_lit 800)).
Definition req_height (body : value num) : value num :=
  field body "height" (VNum (num_lit 600)).
Definition req_elements (body : value num) : value num :=
  field body "elements" (VArr []).
Definition req_css (body : value num) : value num :=
  field body "css" (VStr "").

Definition request_document (body : value num) : value num :=
  VObj [("width", req_width body); ("height", req_height body);
        ("elements", req_elements body); ("css", req_css body)].

(** What [res.json] sends. *)
Definition response (screenshot : string) : value num :=
  VObj [("image_base64",
         VStr ("data:image/png;base64," ++ base64 screenshot))].

(** The handler of [app.post("/render", ...)], from the parsed body to
    the value given to [res.json]. *)
Definition render_handler (endpoint : string) (body : value num)
  : prog (value num) :=
  match body with
  | VNull => Fail TypeError
  | _ =>
      match renderDSLtoHTML (request_document body) with
      | Throw e => Fail e
      | Ok html =>
          Await (Connect endpoint) (fun browser =>
          Await (NewPage browser) (fun page =>
          Await (SetViewport page (req_width body) (req_height body))
            (fun _ =>
          Await (SetContent page html) (fun _ =>
          Await (Screenshot page) (fun screenshot =>
          Await (ClosePage page) (fun _ =>
          Done (response screenshot)))))))
      end
  end.

(** ** The browser the handler talks to

    Every call takes a fresh tick of the world's clock.  The behaviour of
    the remote browser is a parameter: which calls it rejects and what
    bytes a screenshot yields.  A call that resolves has its effect on
    the open connections and pages; a rejected call has none.  The
    handler only passes handles it has just been given, so the model
    does not check them. *)
Inductive event : Type :=
| Connected (endpoint : string) (b : browser)
| Opened (b : browser) (p : page)
| ViewportSet (p : page) (width height : value num)
| ContentSet (p : page) (html : string)
| Shot (p : page)
| Closed (p : page)
| Rejected (tick : nat).

Record world : Type := {
  clock : nat;
  sessions : list browser;
  tabs : list page;
  history : list event
}.

Record engine : Type := {
  rejects : nat -> bool;
  pixels : nat -> string
}.

Definition empty_world : world :=
  {| clock := 0; sessions := []; tabs := []; history := [] |}.

Definition without (p : page) (l : list page) : list page :=
  filter (fun q => negb (q =? p)%nat) l.

Definition perform (e : engine) {X : Type} (o : op X) (w : world)
  : result X * world :=
  let t := clock w in
  if rejects e t then
    (Throw BrowserError,
     {| clock := S t; sessions := sessions w; tabs := tabs w;
        history := history w ++ [Rejected t] |})
  else
    match o in op X return result X * world with
    | Connect ep =>
        (Ok t, {| clock := S t; sessions := t :: sessions w;
                  tabs := tabs w;
                  history := history w ++ [Connected ep t] |})
    | NewPage b =>
        (Ok t, {| clock := S t; sessions := sessions w;
                  tabs := t :: tabs w;
                  history := history w ++ [Opened b t] |})
    | SetViewport p wd ht =>
        (Ok tt, {| clock := S t; sessions := sessions w; tabs := tabs w;
                   history := history w ++ [ViewportSet p wd ht] |})
    | SetContent p html =>
        (Ok tt, {| clock := S t; sessions := sessions w; tabs := tabs w;
                   history := history w ++ [ContentSet p html] |})
    | Screenshot p =>
        (Ok (pixels e t),
         {| clock := S t; sessions := sessions w; tabs := tabs w;
            history := history w ++ [Shot p] |})
    | ClosePage p =>
        (Ok tt, {| clock := S t; sessions := sessions w;
                   tabs := without p (tabs w);
                   history := history w ++ [Closed p] |})
    end.

(** One invocation run to its end, alone. *)
Fixpoint run (e : engine) {A : Type} (m : prog A) (w : world)
  : result A * world :=
  match m with
  | Done a => (Ok a, w)
  | Fail x => (Throw x, w)
  | Await o k =>
      match perform e o w with
      | (Ok x, w') => run e (k x) w'
      | (Throw x, w') => (Throw x, w')
      end
  end.

(** ** Concurrent requests

    Node interleaves the invocations at their [await]s: a step resumes
    one suspended invocation with the outcome of the call it waits for
    and runs it to its next [await]. *)
Definition pool (A : Type) : Type := list (prog A).

Fixpoint replace {A : Type} (i : nat) (a : A) (l : list A) : list A :=
  match l, i with
  | [], _ => []
  | _ :: rest, 0 => a :: rest
  | x :: rest, S j => x :: replace j a rest
  end.

Definition resume (e : engine) {A : Type} (i : nat)
  (st : world * pool A) : world * pool A :=
  let (w, ts) := st in
  match nth_error ts i with
  | Some (Await o k) =>
      match perform e o w with
      | (Ok x, w') => (w', replace i (k x) ts)
      | (Throw x, w') => (w', replace i (Fail x) ts)
      end
  | _ => st
  end.

Definition schedule (e : engine) {A : Type} (order : list nat)
  (st : world * pool A) : world * pool A :=
  fold_left (fun st i => resume e i st) order st.

(** An invocation that has not ended. *)
Definition pending {A : Type} (m : prog A) : bool :=
  match m with
  | Await _ _ => true
  | _ => false
  end.

(** The events of a history that are connections. *)
Definition is_connection (ev : event) : bool :=
  match ev with
  | Connected _ _ => true
  | _ => false
  end.

Definition connections (h : list event) : nat :=
  length (filter is_connection h).

(** The calls of one invocation that runs to its end, started at tick
    [t]. *)
Definition trace (endpoint : string) (body : value num) (html : string)
  (t : nat) : list event :=
  [Connected endpoint t; Opened t (S t);
   ViewportSet (S t) (req_width body) (req_height body);
   ContentSet (S t) html; Shot (S t); Closed (S t)].

(** A body that asks for an empty canvas of the given size. *)
Definition canvas (width height : num) : value num :=
  VObj [("width", VNum width); ("height", VNum height);
        ("elements", VArr [])].

(** The order in which each of [n] invocations in turn is resumed
    twice: its connection resolves, then its page. *)
Definition ramp (first n : nat) : list nat :=
  flat_map (fun i => [i; i]) (seq first n).

(** A body the handler gets to the browser with. *)
Definition compiles (body : value num) : Prop :=
  body <> VNull /\
  exists html, renderDSLtoHTML (request_document body) = Ok html.

End Handler.
Arguments Done {num A} a.
Arguments Fail {num A} e.
Arguments Await {num A X} o k.

Section Serving.
Context {num : Type} `{JsNumber num}.

(** Requests that arrive one after the other, each answered before the
    next one is taken up. *)
Fixpoint serve (e : engine) (endpoint : string)
  (bodies : list (value num)) (w : world)
  : list (result (value num)) * world :=
  match bodies with
  | [] => ([], w)
  | body :: rest =>
      let (r, w1) := run e (render_handler endpoint body) w in
      let (rs, w2) := serve e endpoint rest w1 in
      (r :: rs, w2)
  end.

(** An invocation that ended with an answer. *)
Definition answered {A : Type} (r : result A) : bool :=
  match r with
  | Ok _ => true
  | Throw _ => false
  end.

End Serving.

(** A body that is an array, and one whose [elements] hold a [null]. *)
Definition array_body : value Z := VArr [VNum 1%Z; VStr "two"].

Definition holed_body : value Z :=
  VObj [("width", VNum 400%Z);
        ("elements", VArr [inner_button; VNull])].

(** What the handler compiles the button of the user guide to. *)
Definition click_me_html : string :=
  html_head "400" "200" ++ "" ++
  html_tail ("<button  style=" ++ dq ++ "position:absolute;" ++ nl ++
             "      left:0px;" ++ nl ++
             "      top:0px;" ++ nl ++
             "      width:100px;" ++ nl ++
             "      height:40px;" ++ dq ++ ">Click Me!</button>").

(** A browser that rejects nothing and always yields the same bytes. *)
Definition steady (png : string) : engine :=
  {| rejects := fun _ => false; pixels := fun _ => png |}.

(** Bytes standing for a screenshot. *)
Definition png : string := "PNG".

(** A browser that rejects exactly the call made at tick [t]. *)
Definition failing_at (t : nat) (png : string) : engine :=
  {| rejects := fun n => (n =? t)%nat; pixels := fun _ => png |}.

End Server.

(* ================================================================== *)
(** * Demo utilities of the client: ProgressBar and EventLogger *)

Module DemoUtils.
Import Js.

(** ** ProgressBar *)

Module ProgressBar.
Import QArith Qround.
Local Open Scope string_scope.

(** Numbers as far as [Math.min], [Math.max] and [Math.round] go: these
    never round, so a finite double is the rational it denotes.  The two
    zeros are not told apart; both print as [0]. *)
Inductive number : Type :=
| NaN
| Finite (q : Q)
| Infinite (positive : bool).

Definition math_min (a b : number) : number :=
  match a, b with
  | NaN, _ | _, NaN => NaN
  | Infinite false, _ | _, Infinite false => Infinite false
  | Infinite true, y => y
  | x, Infinite true => x
  | Finite x, Finite y => if Qle_bool x y then a else b
  end.

Definition math_max (a b : number) : number :=
  match a, b with
  | NaN, _ | _, NaN => NaN
  | Infinite true, _ | _, Infinite true => Infinite true
  | Infinite false, y => y
  | x, Infinite false => x
  | Finite x, Finite y => if Qle_bool x y then b else a
  end.

(** [Math.round]: the nearest integer, halves upwards. *)
Definition math_round (a : number) : number :=
  match a with
  | Finite q => Finite (inject_Z (Qfloor (q + (1 # 2))))
  | _ => a
  end.

(** The text of a number that is an integer (of fewer than 22 digits),
    as [Math.round] returns. *)
Definition integer_text (a : number) : string :=
  match a with
  | NaN => "NaN"
  | Finite q => decimal (Qfloor q)
  | Infinite true => "Infinity"
  | Infinite false => "-Infinity"
  end.

(** The options after the defaults have been merged with what the
    caller gave; only their truthiness is ever looked at. *)
Record options : Type := {
  showPercentage : bool;
  showMessage : bool;
  showStage : bool;
  showTimeRemaining : bool;
  animate : bool
}.

Record given_options : Type := {
  given_showPercentage : option bool;
  given_showMessage : option bool;
  given_showStage : option bool;
  given_showTimeRemaining : option bool;
  given_animate : option bool
}.

Definition no_options : given_options :=
  {| given_showPercentage := None; given_showMessage := None;
     given_showStage := None; given_showTimeRemaining := None;
     given_animate := None |}.

Definition or_true (o : option bool) : bool :=
  match o with
  | Some b => b
  | None => true
  end.

Definition merge (g : given_options) : options :=
  {| showPercentage := or_true (given_showPercentage g);
     showMessage := or_true (given_showMessage g);
     showStage := or_true (given_showStage g);
     showTimeRemaining := or_true (given_showTimeRemaining g);
     animate := or_true (given_animate g) |}.

(** What the five elements found by [_render] show.  [fill] is the
    number written before [%] into the width of the fill element, [None]
    while nothing has been written; a [display] is the value of
    [style.display], empty while it has not been set. *)
Record display : Type := {
  fill : option number;
  transition : bool;
  percent_text : string;
  message_text : string;
  message_display : string;
  stage_text : string;
  stage_display : string;
  eta_text : string;
  eta_display : string
}.

Record bar : Type := {
  opts : options;
  progress : number;
  message : string;
  stage : string;
  timeRemaining : option number;
  error_class : bool;
  success_class : bool;
  view : display
}.

Section Methods.

(** [formatDuration(t * 1000)], from the module [lib/types.js]. *)
Variable eta : number -> string.

Definition blank : display :=
  {| fill := None; transition := false; percent_text := "";
     message_text := ""; message_display := "";
     stage_text := ""; stage_display := "";
     eta_text := ""; eta_display := "" |}.

(** [constructor(container, options = {})], [_render] included; the
    classes of the container are taken to be clear. *)
Definition create (g : given_options) : bar :=
  {| opts := merge g; progress := Finite 0; message := ""; stage := "";
     timeRemaining := None; error_class := false; success_class := false;
     view := blank |}.

Definition nonempty (s : string) : bool := negb (s =? "")%string.

(** [_updateDisplay()] *)
Definition updateDisplay (b : bar) : bar :=
  let o := opts b in
  let v := view b in
  let show_message := showMessage o && nonempty (message b) in
  let show_stage := showStage o && nonempty (stage b) in
  {| opts := o; progress := progress b; message := message b;
     stage := stage b; timeRemaining := timeRemaining b;
     error_class := error_class b; success_class := success_class b;
     view :=
       {| fill := Some (progress b);
          transition := if animate o then true else transition v;
          percent_text :=
            if showPercentage o
            then integer_text (math_round (progress b)) ++ "%"
            else percent_text v;
          message_text := if show_message then message b
                          else message_text v;
          message_display := if show_message then "block" else "none";
          stage_text := if show_stage then "Stage: " ++ stage b
                        else stage_text v;
          stage_display := if show_stage then "inline" else "none";
          eta_text :=
            match timeRemaining b with
            | Some t => if showTimeRemaining o then "ETA: " ++ eta t
                        else eta_text v
            | None => eta_text v
            end;
          eta_display :=
            match timeRemaining b with
            | Some _ => if showTimeRemaining o then "inline" else "none"
            | None => "none"
            end |} |}.

Definition keep {A : Type} (given : option A) (old : A) : A :=
  match given with
  | Some a => a
  | None => old
  end.

(** [update(progress, message, stage, timeRemaining)]; an argument left
    out is [undefined], here [None]. *)
Definition update (b : bar) (p : number) (m s : option string)
  (t : option number) : bar :=
  updateDisplay
    {| opts := opts b;
       progress := math_max (Finite 0) (math_min (Finite 100) p);
       message := keep m (message b);
       stage := keep s (stage b);
       timeRemaining := match t with
                        | Some n => Some n
                        | None => timeRemaining b
                        end;
       error_class := error_class b; success_class := success_class b;
       view := view b |}.

(** [reset()] *)
Definition reset (b : bar) : bar :=
  updateDisplay
    {| opts := opts b; progress := Finite 0; message := ""; stage := "";
       timeRemaining := None;
       error_class := error_class b; success_class := success_class b;
       view := view b |}.

(** [setError(message)] *)
Definition setError (b : bar) (m : string) : bar :=
  updateDisplay
    {| opts := opts b; progress := progress b; message := m;
       stage := stage b; timeRemaining := timeRemaining b;
       error_class := true; success_class := success_class b;
       view := view b |}.

(** [setSuccess(message)] *)
Definition setSuccess (b : bar) (m : string) : bar :=
  updateDisplay
    {| opts := opts b; progress := Finite 100; message := m;
       stage := stage b; timeRemaining := timeRemaining b;
       error_class := error_class b; success_class := true;
       view := view b |}.

(** [clearState()] *)
Definition clearState (b : bar) : bar :=
  {| opts := opts b; progress := progress b; message := message b;
     stage := stage b; timeRemaining := timeRemaining b;
     error_class := false; success_class := false; view := view b |}.

(** The calls a user of the component can make, and a bar driven
    through a list of them. *)
Inductive call : Type :=
| Update (p : number) (m s : option string) (t : option number)
| Reset
| SetError (m : string)
| SetSuccess (m : string)
| ClearState.

Definition apply (b : bar) (c : call) : bar :=
  match c with
  | Update p m s t => update b p m s t
  | Reset => reset b
  | SetError m => setError b m
  | SetSuccess m => setSuccess b m
  | ClearState => clearState b
  end.

Definition drive (b : bar) (calls : list call) : bar :=
  fold_left apply calls b.

(** A call that passes a number for the progress. *)
Definition passes_number (c : call) : Prop :=
  match c with
  | Update NaN _ _ _ => False
  | _ => True
  end.

Definition clears (c : call) : bool :=
  match c with
  | ClearState => true
  | _ => false
  end.

(** A percentage between 0 and 100. *)
Definition in_range (a : number) : Prop :=
  match a with
  | Finite q => 0 <= q /\ q <= 100
  | _ => False
  end.

(** A label that is empty or a whole percentage between 0 and 100. *)
Definition whole_percentage (s : string) : Prop :=
  s = "" \/ exists n : Z, (0 <= n <= 100)%Z /\ s = decimal n ++ "%".

End Methods.

End ProgressBar.

(** ** EventLogger *)

Module EventLogger.

(** The two options [log] looks at.  [maxEvents] is taken to be an
    integer, of either sign. *)
Record options : Type := {
  maxEvents : Z;
  filterLevels : list string
}.

Definition default_options : options :=
  {| maxEvents := 100; filterLevels := ["info"; "warn"; "error"] |}.

Section Logger.

(** What the clock and [Math.random] give for [id] and [timestamp], and
    the [data] of an event when it is truthy. *)
Variable moment : Type.
Variable detail : Type.

(** [JSON.stringify(data, null, 2)] returns for this data; it throws on
    data that holds a cycle or a [BigInt]. *)
Variable stringifies : detail -> bool.

Record entry : Type := {
  stamp : moment;
  level : string;
  message : string;
  data : option detail;
  eventType : option string
}.

(** [shown] is the list the events container was last rendered from by
    [_renderEvents]. *)
Record logger : Type := {
  opts : options;
  events : list entry;
  shown : list entry
}.

(** [constructor(container, options)], [_render] included, with the
    options already merged. *)
Definition create (o : options) : logger :=
  {| opts := o; events := []; shown := [] |}.

(** [Array.prototype.slice(0, k)] *)
Definition slice_to {A : Type} (k : Z) (l : list A) : list A :=
  let len := Z.of_nat (length l) in
  let final := if (k <? 0)%Z then Z.max (len + k) 0 else Z.min k len in
  firstn (Z.to_nat final) l.

(** [filterLevels.includes(level)] *)
Definition includes (x : string) (l : list string) : bool :=
  existsb (String.eqb x) l.

(** The lists of events [_renderEvents] gets through: the data of every
    event that has some is passed to [JSON.stringify]. *)
Definition renderable (evs : list entry) : bool :=
  forallb (fun e => match data e with
                    | Some d => stringifies d
                    | None => true
                    end) evs.

(** [_renderEvents()].  The markup of all the events is built first and
    assigned to the container afterwards, so a throw while it is built
    leaves the container as it was. *)
Definition renderEvents (lg : logger) : result unit * logger :=
  if renderable (events lg)
  then (Ok tt, {| opts := opts lg; events := events lg;
                  shown := events lg |})
  else (Throw TypeError, lg).

(** [log(level, message, data, eventType)] at the moment [now]: how the
    call ends and the logger it leaves.  The event is stored before the
    container is rendered, and stays stored when rendering throws. *)
Definition log (lg : logger) (now : moment) (lv msg : string)
  (d : option detail) (ty : option string) : result unit * logger :=
  if includes lv (filterLevels (opts lg)) then
    let ev := {| stamp := now; level := lv; message := msg; data := d;
                 eventType := ty |} in
    let unshifted := ev :: events lg in
    let kept :=
      if (Z.of_nat (length unshifted) >? maxEvents (opts lg))%Z
      then slice_to (maxEvents (opts lg)) unshifted
      else unshifted in
    renderEvents {| opts := opts lg; events := kept; shown := shown lg |}
  else (Ok tt, lg).

(** [info], [warn], [error] *)
Definition info (lg : logger) (now : moment) (msg : string)
  (d : option detail) (ty : option string) : result unit * logger :=
  log lg now "info" msg d ty.

Definition warn (lg : logger) (now : moment) (msg : string)
  (d : option detail) (ty : option string) : result unit * logger :=
  log lg now "warn" msg d ty.

Definition error (lg : logger) (now : moment) (msg : string)
  (d : option detail) (ty : option string) : result unit * logger :=
  log lg now "error" msg d ty.

(** [clear()] *)
Definition clear (lg : logger) : result unit * logger :=
  renderEvents {| opts := opts lg; events := []; shown := shown lg |}.

(** The calls on a logger, and a logger driven through a list of them
    by callers that go on whether a call returned or threw (each call is
    made from an event listener of its own). *)
Inductive call : Type :=
| Log (now : moment) (lv msg : string) (d : option detail)
      (ty : option string)
| Clear.

Definition apply (lg : logger) (c : call) : result unit * logger :=
  match c with
  | Log now lv msg d ty => log lg now lv msg d ty
  | Clear => clear lg
  end.

Definition drive (lg : logger) (calls : list call) : logger :=
  fold_left (fun l c => snd (apply l c)) calls lg.

(** The entries a list of [log] calls asks for, oldest first, those of
    a level that is filtered out left aside. *)
Fixpoint accepted (o : options) (calls : list call) : list entry :=
  match calls with
  | [] => []
  | Log now lv msg d ty :: rest =>
      if includes lv (filterLevels o)
      then {| stamp := now; level := lv; message := msg; data := d;
              eventType := ty |} :: accepted o rest
      else accepted o rest
  | Clear :: rest => accepted o rest
  end.

Definition only_logs (calls : list call) : Prop :=
  Forall (fun c => c <> Clear) calls.

(** A call whose data, if any, [JSON.stringify] returns for. *)
Definition stringifiable (c : call) : Prop :=
  match c with
  | Log _ _ _ (Some d) _ => stringifies d = true
  | _ => True
  end.

End Logger.
Arguments stamp {moment detail} e.
Arguments level {moment detail} e.
Arguments message {moment detail} e.
Arguments data {moment detail} e.
Arguments eventType {moment detail} e.
Arguments opts {moment detail} l.
Arguments events {moment detail} l.
Arguments shown {moment detail} l.
Arguments create {moment detail} o.
Arguments renderable {moment detail} stringifies evs.
Arguments renderEvents {moment detail} stringifies lg.
Arguments log {moment detail} stringifies lg now lv msg d ty.
Arguments info {moment detail} stringifies lg now msg d ty.
Arguments warn {moment detail} stringifies lg now msg d ty.
Arguments error {moment detail} stringifies lg now msg d ty.
Arguments clear {moment detail} stringifies lg.
Arguments Log {moment detail} now lv msg d ty.
Arguments Clear {moment detail}.
Arguments apply {moment detail} stringifies lg c.
Arguments drive {moment detail} stringifies lg calls.
Arguments accepted {moment detail} o calls.
Arguments only_logs {moment detail} calls.
Arguments stringifiable {moment detail} stringifies c.

(** A logger of two events for the levels [info] and [error], and four
    calls, one of them of a level that is filtered out. *)
Definition two_of_info_error : options :=
  {| maxEvents := 2; filterLevels := ["info"; "error"] |}.

Definition four_logs : list (call nat unit) :=
  [Log 1 "info" "first" None None;
   Log 2 "debug" "second" None None;
   Log 3 "error" "third" None None;
   Log 4 "info" "fourth" None None].

(** Data that is a number, stringified when it is not 13, and calls of
    which the second carries the number 13. *)
Definition not_thirteen (d : nat) : bool := negb (d =? 13)%nat.

Definition plain_logs : list (call nat nat) :=
  [Log 1 "info" "first" (Some 5) None;
   Log 2 "warn" "second" None None].

Definition thirteen_logs : list (call nat nat) :=
  [Log 1 "info" "first" (Some 5) None;
   Log 2 "warn" "second" (Some 13) None].

End EventLogger.

End DemoUtils.

(* ================================================================== *)
(** * Facts about the JavaScript fragment *)

Module JsFacts.
Import Js.

(** Case analysis on which of the literal keys of the goal a key is. *)
Ltac by_key :=
  repeat match goal with
         | |- context [(?k =? ?lit)%string] =>
             destruct (String.eqb_spec k lit); [subst; simpl|]
         end.

Lemma decimal_zero (z : Z) : decimal z = "0" -> z = 0%Z.
Proof.
  intro E. apply Z.eqb_eq. exact (num_zero_falsy (num := Z) z E).
Qed.

(** ** Trimming *)

Lemma trim_end_cons (c : ascii) (t : string) :
  is_space c = false -> trim_end (String c t) = String c (trim_end t).
Proof.
  intro Hc. simpl. rewrite Hc. now destruct (trim_end t).
Qed.

Lemma tight_cons (c : ascii) (t : string) :
  is_space c = false -> tight (String c t).
Proof.
  intro Hc. unfold tight. now rewrite trim_end_cons.
Qed.

Lemma trim_end_app (a b : string) :
  tight b -> trim_end (a ++ b) = a ++ trim_end b.
Proof.
  unfold tight. intro Hb.
  induction a as [|c a IH]; simpl; [reflexivity|].
  rewrite IH.
  destruct (a ++ trim_end b) eqn:E; [|reflexivity].
  destruct a; simpl in E; [contradiction | discriminate].
Qed.

Lemma tight_app (a b : string) : tight b -> tight (a ++ b).
Proof.
  intro Hb. unfold tight. rewrite trim_end_app by assumption.
  destruct a; simpl; [exact Hb | discriminate].
Qed.

(** ** Induction on values, with the hypothesis for every item of an
    array and every member of an object *)

Section ValueInduction.
Context {num : Type}.
Variable P : value num -> Prop.
Hypothesis Pnull : P VNull.
Hypothesis Pbool : forall b, P (VBool b).
Hypothesis Pnum : forall n, P (VNum n).
Hypothesis Pstr : forall s, P (VStr s).
Hypothesis Parr : forall items, Forall P items -> P (VArr items).
Hypothesis Pobj : forall props,
  Forall (fun kv => P (snd kv)) props -> P (VObj props).

Fixpoint value_ind (v : value num) : P v :=
  match v with
  | VNull => Pnull
  | VBool b => Pbool b
  | VNum n => Pnum n
  | VStr s => Pstr s
  | VArr items =>
      Parr items
        ((fix all (l : list (value num)) : Forall P l :=
            match l with
            | [] => Forall_nil P
            | x :: rest => Forall_cons x (value_ind x) (all rest)
            end) items)
  | VObj props =>
      Pobj props
        ((fix all (l : list (string * value num))
            : Forall (fun kv => P (snd kv)) l :=
            match l with
            | [] => Forall_nil _
            | kv :: rest => Forall_cons kv (value_ind (snd kv)) (all rest)
            end) props)
  end.

End ValueInduction.

(** ** Documents that are the same object *)

Section Same.
Context {num : Type} `{JsNumber num}.

Lemma get_own_in (k : string) (props : list (string * value num))
  (v : value num) :
  get_own k props = Some v -> In (k, v) props.
Proof.
  induction props as [|[k' v'] rest IH]; simpl; [discriminate|].
  destruct (get_own k rest) as [u|].
  - intros [= ->]. right. now apply IH.
  - destruct (String.eqb_spec k k') as [->|]; [|discriminate].
    intros [= ->]. now left.
Qed.

Lemma same_refl (v : value num) : same v v.
Proof.
  induction v as [| | | |items IH|props IH] using value_ind;
    try constructor.
  - induction IH; constructor; assumption.
  - intro k. destruct (get_own k props) as [u|] eqn:E; constructor.
    apply get_own_in in E.
    rewrite Forall_forall in IH. exact (IH _ E).
Qed.

Lemma same_get (a b : value num) (k : string) :
  same a b -> same_opt same (get a k) (get b k).
Proof.
  intros [| | | | |p1 p2 E]; simpl; try constructor. apply E.
Qed.

Lemma same_get_opt (a b : option (value num)) (k : string) :
  same_opt same a b -> same_opt same (get_opt a k) (get_opt b k).
Proof.
  intros [|x y [| | | | |p1 p2 E]]; simpl; try constructor. apply E.
Qed.

Lemma same_truthy (a b : option (value num)) :
  same_opt same a b -> truthy a = truthy b.
Proof.
  intros [|x y [| | | | |]]; reflexivity.
Qed.

Lemma same_items_to_string (l1 l2 : list (value num)) :
  Forall2 (fun x y => same x y /\ to_string x = to_string y) l1 l2 ->
  to_string (VArr l1) = to_string (VArr l2).
Proof.
  induction 1 as [|x y r1 r2 [Sxy Exy] F IH]; [reflexivity|].
  simpl in *.
  assert (Ex : match x with VNull => Ok "" | _ => to_string x end
             = match y with VNull => Ok "" | _ => to_string y end).
  { rewrite Exy. destruct Sxy; reflexivity. }
  rewrite Ex.
  destruct F; [reflexivity|].
  rewrite IH. reflexivity.
Qed.

Lemma same_to_string (a b : value num) :
  same a b -> to_string a = to_string b.
Proof.
  revert b.
  induction a as [|c|n|s|items IH|props IH] using value_ind;
    intros b' S; inversion S as [| | | |l1 l2 F|p1 p2 E]; subst;
    try reflexivity.
  - (* arrays *)
    apply same_items_to_string.
    clear S. induction F as [|x y r1 r2 Sxy F IHF]; constructor.
    + split; [assumption|]. inversion IH; subst. auto.
    + apply IHF. now inversion IH.
  - (* objects *)
    simpl. destruct (E "toString"); reflexivity.
Qed.

Lemma same_to_string_opt (a b : option (value num)) :
  same_opt same a b -> to_string_opt a = to_string_opt b.
Proof.
  intros [|x y S]; [reflexivity|]. now apply same_to_string.
Qed.

Lemma same_or_else (a b : option (value num)) (d : value num) :
  same_opt same a b -> same (or_else a d) (or_else b d).
Proof.
  intro S. pose proof (same_truthy _ _ S) as T.
  destruct S as [|x y Sxy]; [apply same_refl|].
  unfold or_else. rewrite T.
  destruct (truthy (Some y)); [exact Sxy | apply same_refl].
Qed.

End Same.

End JsFacts.

(* ================================================================== *)
(** * Properties of renderHtml.js *)

Module RenderHtmlFacts.
Import Js JsFacts RenderHtml.

Section Determinism.
Context {num : Type} `{JsNumber num}.

Lemma same_coord (a b : value num) (k : string) (d : value num) :
  same a b ->
  to_string (or_else (get a k) d) = to_string (or_else (get b k) d).
Proof.
  intro S. apply same_to_string, same_or_else, same_get, S.
Qed.

Lemma same_style_part (a b : value num) (prop css suffix : string) :
  same a b -> style_part a prop css suffix = style_part b prop css suffix.
Proof.
  intro S. unfold style_part.
  assert (G : same_opt same (get_opt (get a "style") prop)
                            (get_opt (get b "style") prop))
    by (apply same_get_opt, same_get, S).
  rewrite (same_truthy _ _ G), (same_to_string_opt _ _ G). reflexivity.
Qed.

Lemma same_element_style (a b : value num) :
  same a b -> element_style a = element_style b.
Proof.
  intro S. unfold element_style.
  pose proof (fun k d => same_coord a b k d S) as C.
  pose proof (fun p c x => same_style_part a b p c x S) as P.
  rewrite !C, !P. reflexivity.
Qed.

Lemma same_element_class (a b : value num) :
  same a b -> element_class a = element_class b.
Proof.
  intro S. unfold element_class.
  pose proof (same_get _ _ "class" S) as G.
  rewrite (same_truthy _ _ G), (same_to_string_opt _ _ G). reflexivity.
Qed.

Lemma same_has_type (a b : value num) (name : string) :
  same a b -> has_type a name = has_type b name.
Proof.
  intro S. unfold has_type.
  destruct (same_get _ _ "type" S) as [|x y [| | | | |]]; reflexivity.
Qed.

Lemma same_renderElement (a b : value num) :
  same a b -> renderElement a = renderElement b.
Proof.
  intro S.
  pose proof (same_element_style _ _ S) as Es.
  pose proof (same_element_class _ _ S) as Ec.
  pose proof (fun n => same_has_type _ _ n S) as Et.
  pose proof (fun k d => same_coord a b k d S) as C.
  destruct S; unfold renderElement; try reflexivity;
    rewrite Es, Ec, !Et, !C; reflexivity.
Qed.

Lemma same_map_render (l1 l2 : list (value num)) :
  Forall2 same l1 l2 -> map_render l1 = map_render l2.
Proof.
  induction 1 as [|x y r1 r2 S F IH]; simpl; [reflexivity|].
  now rewrite (same_renderElement _ _ S), IH.
Qed.

Lemma same_render_body (a b : option (value num)) :
  same_opt same a b -> render_body a = render_body b.
Proof.
  intros [|x y [| | | |l1 l2 F|]]; simpl; try reflexivity.
  now rewrite (same_map_render _ _ F).
Qed.

(** C3.  [renderDSLtoHTML] is a function of the document alone: two
    documents that are the same object (the same properties with the
    same values, in particular identical documents, see [same_refl])
    compile to the same outcome, byte-identical HTML or the same
    exception.  The embedding has no state to read or write. *)
Theorem compile_deterministic (d1 d2 : value num) :
  same d1 d2 -> renderDSLtoHTML d1 = renderDSLtoHTML d2.
Proof.
  intro S.
  pose proof (fun k => same_get _ _ k S) as G.
  pose proof (same_render_body _ _ (G "elements")) as Eb.
  pose proof (fun k => same_to_string_opt _ _ (G k)) as Ek.
  destruct S; unfold renderDSLtoHTML; try reflexivity;
    rewrite Eb, !Ek; reflexivity.
Qed.

End Determinism.

Lemma compile_deterministic_witness :
  same click_me_doc click_me_reordered /\
  renderDSLtoHTML click_me_doc = renderDSLtoHTML click_me_reordered.
Proof.
  assert (S : same click_me_doc click_me_reordered).
  { apply same_obj. intro k. simpl.
    by_key; try (constructor; apply same_refl); constructor.
    apply same_arr. constructor; [|constructor].
    apply same_obj. intro j. simpl.
    by_key; constructor; apply same_refl. }
  split; [exact S | exact (compile_deterministic _ _ S)].
Defined.

Section Interpolation.
Context {num : Type} `{JsNumber num}.

(** C8.  The top-level [css] string is copied as it is into the
    compiled document, right after the generated [body] rule (the last
    thing in [html_head]) and before the [<style>] element is closed,
    where a later rule of the same specificity overrides an earlier
    one. *)
Theorem css_verbatim (doc : value num) (css body width height : string) :
  doc <> VNull ->
  get doc "css" = Some (VStr css) ->
  render_body (get doc "elements") = Ok body ->
  to_string_opt (get doc "width") = Ok width ->
  to_string_opt (get doc "height") = Ok height ->
  renderDSLtoHTML doc
    = Ok (html_head width height ++ css ++ html_tail body)
  /\ (exists before,
        html_head width height
        = before ++ "body {" ++ nl ++
          "          margin: 0;" ++ nl ++
          "          position: relative;" ++ nl ++
          "          width: " ++ width ++ "px;" ++ nl ++
          "          height: " ++ height ++ "px;" ++ nl ++
          "        }" ++ nl ++ "        ")
  /\ (exists after,
        html_tail body = nl ++ "      </style>" ++ after).
Proof.
  intros Hdoc Hcss Hbody Hw Hh. split; [|split].
  - destruct doc; try contradiction; unfold renderDSLtoHTML;
      rewrite Hbody, Hw, Hh, Hcss; reflexivity.
  - eexists (nl ++ "    <!DOCTYPE html>" ++ nl ++ "    <html>" ++ nl ++
             "    <head>" ++ nl ++ "      <meta charset=" ++ dq ++ "utf-8"
             ++ dq ++ " />" ++ nl ++ "      <style>" ++ nl ++ "        ").
    reflexivity.
  - eexists. reflexivity.
Qed.

Lemma has_type_exclusive (el : value num) (a b : string) :
  has_type el a = true -> (a =? b)%string = false -> has_type el b = false.
Proof.
  unfold has_type.
  destruct (get el "type") as [[| | |s| |]|]; try discriminate.
  intros E N. apply String.eqb_eq in E. now subst.
Qed.

(** C9.  Nothing is escaped.  For an element whose inline style and
    class attribute have been computed, a string [label] (of a button),
    [text] (of a text), [placeholder] (of an input) and [class] stand in
    the output exactly as given, between fixed pieces of markup; whatever
    quotes, angle brackets or tags they hold become part of the
    document. *)
Theorem fields_interpolated_verbatim (el : value num) (style cls : string) :
  el <> VNull ->
  element_style el = Ok style ->
  element_class el = Ok cls ->
  (forall s, has_type el "button" = true ->
             get el "label" = Some (VStr s) -> s <> "" ->
             renderElement el
             = Ok ("<button " ++ cls ++ " style=" ++ dq ++ style ++ dq
                   ++ ">" ++ s ++ "</button>"))
  /\ (forall s, has_type el "text" = true ->
                get el "text" = Some (VStr s) -> s <> "" ->
                renderElement el
                = Ok ("<div " ++ cls ++ " style=" ++ dq ++ style ++ dq
                      ++ ">" ++ s ++ "</div>"))
  /\ (forall s, has_type el "input" = true ->
                get el "placeholder" = Some (VStr s) ->
                renderElement el
                = Ok ("<input " ++ cls ++ " style=" ++ dq ++ style ++ dq
                      ++ " placeholder=" ++ dq ++ s ++ dq ++ " />"))
  /\ (forall c, get el "class" = Some (VStr c) -> c <> "" ->
                cls = "class=" ++ dq ++ c ++ dq).
Proof.
  intros Hel Hs Hc.
  assert (T : forall s, s <> "" -> (s =? "")%string = false)
    by (intros s N; now apply String.eqb_neq).
  repeat split.
  - intros s Ht Hl N.
    destruct el; try contradiction; unfold renderElement;
      rewrite Hs, Hc, Ht, Hl; simpl; rewrite (T s N); reflexivity.
  - intros s Ht Hl N.
    pose proof (has_type_exclusive el "text" "button" Ht eq_refl) as Nb.
    destruct el; try contradiction; unfold renderElement;
      rewrite Hs, Hc, Nb, Ht, Hl; simpl; rewrite (T s N); reflexivity.
  - intros s Ht Hl.
    pose proof (has_type_exclusive el "input" "button" Ht eq_refl) as Nb.
    pose proof (has_type_exclusive el "input" "text" Ht eq_refl) as Nt.
    destruct el; try contradiction; unfold renderElement;
      rewrite Hs, Hc, Nb, Nt, Ht, Hl; simpl;
      destruct (s =? "")%string eqn:E; try reflexivity;
      apply String.eqb_eq in E; subst; reflexivity.
  - intros c Hg N. unfold element_class in Hc.
    rewrite Hg in Hc. simpl in Hc. rewrite (T c N) in Hc. simpl in Hc.
    now inversion Hc.
Qed.

End Interpolation.

Section Box.
Context {num : Type} `{JsNumber num}.

Lemma coord_px (o : option (value num)) (d : Z) :
  numeric o = true -> (Z.abs d <= 2 ^ 53)%Z ->
  to_string (or_else o (VNum (num_lit d))) = Ok (px o d).
Proof.
  intros N B.
  destruct o as [[| |n| | |]|]; try discriminate N; simpl.
  - destruct (num_falsy n); simpl; [|reflexivity].
    now rewrite num_lit_string.
  - now rewrite num_lit_string.
Qed.

Lemma px_not_zero (o : option (value num)) (d : Z) :
  d <> 0%Z -> px o d <> "0".
Proof.
  intros Nd E.
  assert (D : decimal d <> "0") by (intro D; now apply decimal_zero in D).
  destruct o as [[| |n| | |]|]; simpl in E; try contradiction.
  destruct (num_falsy n) eqn:F; [contradiction|].
  apply num_zero_falsy in E. congruence.
Qed.

Lemma tight_px (t : string) : tight ("px;" ++ t).
Proof. now apply tight_cons. Qed.

Lemma trim_style (x y w h rest : string) :
  trim (nl ++
    "      position:absolute;" ++ nl ++
    "      left:" ++ x ++ "px;" ++ nl ++
    "      top:" ++ y ++ "px;" ++ nl ++
    "      width:" ++ w ++ "px;" ++ nl ++
    "      height:" ++ h ++ "px;" ++ rest)
  = "position:absolute;" ++ nl ++
    "      left:" ++ x ++ "px;" ++ nl ++
    "      top:" ++ y ++ "px;" ++ nl ++
    "      width:" ++ w ++ "px;" ++ nl ++
    "      height:" ++ h ++ "px;" ++ trim_end rest.
Proof.
  unfold trim.
  change (trim_end ("position:absolute;" ++ nl ++
    "      left:" ++ x ++ "px;" ++ nl ++
    "      top:" ++ y ++ "px;" ++ nl ++
    "      width:" ++ w ++ "px;" ++ nl ++
    "      height:" ++ h ++ "px;" ++ rest) = 
    "position:absolute;" ++ nl ++
    "      left:" ++ x ++ "px;" ++ nl ++
    "      top:" ++ y ++ "px;" ++ nl ++
    "      width:" ++ w ++ "px;" ++ nl ++
    "      height:" ++ h ++ "px;" ++ trim_end rest).
  do 16 (rewrite trim_end_app
           by (repeat first [apply tight_px | apply tight_app])).
  change ("px;" ++ rest) with (String "p" (String "x" (String ";" rest))).
  now rewrite !trim_end_cons.
Qed.


End Box.



Section TopLevel.
Context {num : Type} `{JsNumber num}.

Lemma get_own_without (k : string) (props : list (string * value num)) :
  (k =? "children")%string = false ->
  get_own k (filter (fun kv => negb (fst kv =? "children")%string) props)
  = get_own k props.
Proof.
  intro N. induction props as [|[k' v] rest IH]; [reflexivity|].
  simpl. destruct (String.eqb_spec k' "children") as [->|D]; simpl.
  - rewrite IH, N. now destruct (get_own k rest).
  - now rewrite IH.
Qed.

Lemma renderElement_without_children (el : value num) :
  renderElement (without_children el) = renderElement el.
Proof.
  destruct el as [| | | | |props]; try reflexivity.
  unfold without_children, renderElement, element_style, element_class,
    style_part, has_type, get.
  now rewrite !get_own_without by reflexivity.
Qed.

Lemma map_render_without_children (els : list (value num)) :
  map_render (map without_children els) = map_render els.
Proof.
  induction els as [|el rest IH]; [reflexivity|].
  simpl. now rewrite renderElement_without_children, IH.
Qed.

Lemma map_render_each (els : list (value num)) (l : list string) :
  Forall2 (fun el s => renderElement el = Ok s) els l ->
  map_render els = Ok l.
Proof.
  induction 1 as [|el s els l E F IH]; [reflexivity|].
  simpl. now rewrite E, IH.
Qed.

Lemma unrecognized_renders_nothing (el : value num) (s : string) :
  recognized el = false -> renderElement el = Ok s -> s = "".
Proof.
  unfold recognized. intro R.
  apply orb_false_elim in R as [R Hi].
  apply orb_false_elim in R as [Hb Ht].
  destruct el; try discriminate; unfold renderElement;
    rewrite Hb, Ht, Hi;
    destruct (element_style _); try discriminate;
    destruct (element_class _); try discriminate;
    simpl; now intros [= <-].
Qed.

(** C6, as amended.  Only the top-level elements are rendered.  When
    [l] lists what [renderElement] returns for the elements [els], in
    order, the body is [l] joined by newlines, in that order; it is the
    same body when every [children] member is taken away, so no child
    contributes anything; and the entry of an element whose type is not
    [button], [text] or [input] (every container kind) is empty. *)
Theorem top_level_only (els : list (value num)) (l : list string) :
  Forall2 (fun el s => renderElement el = Ok s) els l ->
  render_body (Some (VArr els)) = Ok (join nl l)
  /\ render_body (Some (VArr (map without_children els))) = Ok (join nl l)
  /\ Forall2 (fun el s => recognized el = false -> s = "") els l.
Proof.
  intro F. split; [|split].
  - simpl. now rewrite (map_render_each _ _ F).
  - simpl. now rewrite map_render_without_children, (map_render_each _ _ F).
  - induction F as [|el s els l E F IH]; constructor; [|exact IH].
    intro R. exact (unrecognized_renders_nothing el s R E).
Qed.

End TopLevel.

(** C6, as stated, fails: the button inside the container is rendered
    when it stands alone, and leaves no trace when the container is
    compiled. *)
Lemma child_button_omitted :
  (exists s, renderElement inner_button = Ok s
             /\ occurrences "<button" s = 1)
  /\ (exists html, renderDSLtoHTML panel_doc = Ok html
                   /\ occurrences "<button" html = 0
                   /\ occurrences "Inside" html = 0).
Proof.
  split; eexists; repeat split; vm_compute; reflexivity.
Qed.

Lemma top_level_only_witness :
  render_body (Some (VArr [panel; inner_button]))
  = Ok (nl ++ "<button  style=" ++ dq ++ "position:absolute;" ++ nl ++
        "      left:5px;" ++ nl ++
        "      top:5px;" ++ nl ++
        "      width:100px;" ++ nl ++
        "      height:40px;" ++ dq ++ ">Inside</button>").
Proof.
  refine (proj1 (top_level_only [panel; inner_button]
    [""; "<button  style=" ++ dq ++ "position:absolute;" ++ nl ++
        "      left:5px;" ++ nl ++
        "      top:5px;" ++ nl ++
        "      width:100px;" ++ nl ++
        "      height:40px;" ++ dq ++ ">Inside</button>"] _)).
  repeat constructor.
Defined.

Lemma css_verbatim_witness :
  renderDSLtoHTML styled_doc
  = Ok (html_head "400" "200"
        ++ "body { background: #fff !important; }" ++ html_tail "").
Proof.
  refine (proj1 (css_verbatim styled_doc _ "" "400" "200" _
                   eq_refl eq_refl eq_refl eq_refl)).
  discriminate.
Defined.

Lemma fields_interpolated_verbatim_witness :
  renderElement markup_button
  = Ok ("<button class=" ++ dq ++ "a" ++ dq ++ " onclick=" ++ dq ++ "run()"
        ++ dq ++ " style=" ++ dq ++ "position:absolute;" ++ nl ++
        "      left:0px;" ++ nl ++
        "      top:0px;" ++ nl ++
        "      width:100px;" ++ nl ++
        "      height:40px;" ++ dq ++
        "></button><script>alert(1)</script></button>").
Proof.
  refine (proj1 (fields_interpolated_verbatim markup_button _ _ _
                   eq_refl eq_refl) _ eq_refl eq_refl _);
    discriminate.
Defined.

End RenderHtmlFacts.

(* ================================================================== *)
(** * Properties of server.js *)

Module ServerFacts.
Import Js JsFacts RenderHtml Server.

Section Runs.
Context {num : Type} `{JsNumber num}.

Lemma without_self (p : page) (l : list page) :
  without p (p :: l) = without p l.
Proof. unfold without. simpl. now rewrite Nat.eqb_refl. Qed.

Lemma not_in_without (p : page) (l : list page) : ~ In p (without p l).
Proof.
  unfold without. intro I. apply filter_In in I as [_ I].
  now rewrite Nat.eqb_refl in I.
Qed.

(** The handler once it has compiled the body. *)
Lemma render_handler_compiled (ep : string) (body : value num)
  (html : string) :
  body <> VNull ->
  renderDSLtoHTML (request_document body) = Ok html ->
  render_handler ep body
  = Await (Connect ep) (fun browser =>
    Await (NewPage browser) (fun page =>
    Await (SetViewport page (req_width body) (req_height body)) (fun _ =>
    Await (SetContent page html) (fun _ =>
    Await (Screenshot page) (fun screenshot =>
    Await (ClosePage page) (fun _ =>
    Done (response screenshot))))))).
Proof.
  intros N C. destruct body; try contradiction;
    unfold render_handler; rewrite C; reflexivity.
Qed.

(** A run in which the browser rejects nothing. *)
Lemma run_handler_ok (e : engine) (ep : string) (body : value num)
  (html : string) (w : world) :
  (forall t, rejects e t = false) ->
  body <> VNull ->
  renderDSLtoHTML (request_document body) = Ok html ->
  run e (render_handler ep body) w
  = (Ok (response (pixels e (4 + clock w))),
     {| clock := 6 + clock w;
        sessions := clock w :: sessions w;
        tabs := without (S (clock w)) (tabs w);
        history := (history w ++ trace ep body html (clock w))%list |}).
Proof.
  intros Calm N C.
  rewrite (render_handler_compiled ep body html N C).
  simpl. unfold perform. simpl. rewrite !Calm. simpl.
  rewrite Nat.eqb_refl. simpl.
  repeat rewrite <- app_assoc. reflexivity.
Qed.

Lemma connections_app (h1 h2 : list (@event num)) :
  connections (h1 ++ h2) = connections h1 + connections h2.
Proof.
  unfold connections. now rewrite filter_app, length_app.
Qed.

Lemma connections_trace (ep : string) (body : value num) (html : string)
  (t : nat) :
  connections (trace ep body html t) = 1.
Proof. reflexivity. Qed.

(** C1, as amended.  There is no cache and no content hash.  When the
    browser rejects nothing, rendering the same body twice goes through
    the browser twice: each call opens a connection of its own, loads
    the same HTML into a new page and answers with the image captured on
    that call, in an object whose only member is [image_base64]. *)
Theorem every_render_connects (e : engine) (ep : string)
  (body : value num) (html : string) (w : world) :
  (forall t, rejects e t = false) ->
  body <> VNull ->
  renderDSLtoHTML (request_document body) = Ok html ->
  let first := run e (render_handler ep body) w in
  let second := run e (render_handler ep body) (snd first) in
  fst first = Ok (response (pixels e (4 + clock w)))
  /\ fst second = Ok (response (pixels e (10 + clock w)))
  /\ history (snd second)
     = (history w ++ trace ep body html (clock w)
                  ++ trace ep body html (6 + clock w))%list
  /\ connections (history (snd first)) = connections (history w) + 1
  /\ connections (history (snd second))
     = connections (history (snd first)) + 1
  /\ (forall png, get (response (num := num) png) "content_hash" = None).
Proof.
  intros Calm N C first second. subst first second.
  rewrite (run_handler_ok e ep body html w Calm N C). simpl snd.
  rewrite (run_handler_ok e ep body html _ Calm N C). simpl.
  rewrite <- app_assoc, !connections_app, !connections_trace.
  repeat split; lia.
Qed.

(** C4, as amended.  The handler checks no bound.  For every width and
    height, inside 100..4000 or not, a body asking for an empty canvas of
    that size is compiled, the viewport is set to exactly that width and
    height, and the screenshot is returned. *)
Theorem no_canvas_bounds (e : engine) (ep : string) (width height : num)
  (w : world) :
  (forall t, rejects e t = false) ->
  let html := html_head (num_to_string width) (num_to_string height)
              ++ "" ++ html_tail "" in
  renderDSLtoHTML (request_document (canvas width height)) = Ok html
  /\ fst (run e (render_handler ep (canvas width height)) w)
     = Ok (response (pixels e (4 + clock w)))
  /\ history (snd (run e (render_handler ep (canvas width height)) w))
     = (history w ++
        [Connected ep (clock w); Opened (clock w) (S (clock w));
         ViewportSet (S (clock w)) (VNum width) (VNum height);
         ContentSet (S (clock w)) html;
         Shot (S (clock w)); Closed (S (clock w))])%list.
Proof.
  intros Calm html.
  assert (C : renderDSLtoHTML (request_document (canvas width height))
              = Ok html) by reflexivity.
  split; [exact C|].
  assert (N : canvas width height <> VNull) by discriminate.
  rewrite (run_handler_ok e ep _ html w Calm N C).
  split; reflexivity.
Qed.

(** C7: what the handler does when a call on the page is rejected.
    The connection and the page are opened at ticks [clock w] and
    [clock w + 1]; if the first rejected call is the one at tick
    [clock w + k] for [k] = 2 ([setViewport]), 3 ([setContent]) or 4
    ([screenshot]), the invocation ends with that rejection and the page
    is still open: [page.close()] is only reached when everything before
    it has resolved. *)
Theorem page_left_open_on_failure (e : engine) (ep : string)
  (body : value num) (html : string) (w : world) (k : nat) :
  body <> VNull ->
  renderDSLtoHTML (request_document body) = Ok html ->
  2 <= k <= 4 ->
  (forall j, j < k -> rejects e (j + clock w) = false) ->
  rejects e (k + clock w) = true ->
  fst (run e (render_handler ep body) w) = Throw BrowserError
  /\ tabs (snd (run e (render_handler ep body) w)) = S (clock w) :: tabs w
  /\ In (S (clock w)) (tabs (snd (run e (render_handler ep body) w))).
Proof.
  intros N C K Before At.
  rewrite (render_handler_compiled ep body html N C).
  assert (R0 : rejects e (clock w) = false) by (apply (Before 0); lia).
  assert (R1 : rejects e (S (clock w)) = false) by (apply (Before 1); lia).
  assert (Kc : k = 2 \/ k = 3 \/ k = 4) by lia.
  destruct Kc as [-> | [-> | ->]]; simpl in At;
    simpl; unfold perform; simpl.
  - rewrite R0; simpl. rewrite R1; simpl. rewrite At; simpl. auto.
  - assert (R2 : rejects e (S (S (clock w))) = false)
      by (apply (Before 2); lia).
    rewrite R0; simpl. rewrite R1; simpl. rewrite R2; simpl.
    rewrite At; simpl. auto.
  - assert (R2 : rejects e (S (S (clock w))) = false)
      by (apply (Before 2); lia).
    assert (R3 : rejects e (S (S (S (clock w)))) = false)
      by (apply (Before 3); lia).
    rewrite R0; simpl. rewrite R1; simpl. rewrite R2; simpl.
    rewrite R3; simpl. rewrite At; simpl. auto.
Qed.

(** On the path where nothing is rejected the page is closed. *)
Lemma page_closed_on_success (e : engine) (ep : string)
  (body : value num) (html : string) (w : world) :
  (forall t, rejects e t = false) ->
  body <> VNull ->
  renderDSLtoHTML (request_document body) = Ok html ->
  ~ In (S (clock w)) (tabs (snd (run e (render_handler ep body) w))).
Proof.
  intros Calm N C. rewrite (run_handler_ok e ep body html w Calm N C).
  apply not_in_without.
Qed.

(** ** Interleaved invocations *)

Lemma nth_error_middle {A : Type} (d : list A) (x : A) (r : list A) :
  nth_error (d ++ x :: r) (length d) = Some x.
Proof. induction d; simpl; auto. Qed.

Lemma replace_middle {A : Type} (d : list A) (x y : A) (r : list A) :
  replace (length d) y (d ++ x :: r) = (d ++ y :: r)%list.
Proof. induction d; simpl; [reflexivity | now f_equal]. Qed.

(** Resumed twice, an invocation that compiled its body holds a
    connection and an open page and waits for [setViewport], whatever
    else is open at that time. *)
Lemma resume_twice (e : engine) (ep : string) (body : value num)
  (w : world) (done rest : pool (value num)) :
  (forall t, rejects e t = false) ->
  compiles body ->
  exists m,
    pending m = true /\
    resume e (length done)
      (resume e (length done) (w, done ++ render_handler ep body :: rest)%list)
    = ({| clock := 2 + clock w;
          sessions := clock w :: sessions w;
          tabs := S (clock w) :: tabs w;
          history := (history w ++ [Connected ep (clock w);
                                    Opened (clock w) (S (clock w))])%list |},
       (done ++ m :: rest)%list).
Proof.
  intros Calm [N [html C]].
  rewrite (render_handler_compiled ep body html N C).
  eexists. split; [|unfold resume].
  2: { rewrite nth_error_middle. unfold perform at 1. rewrite Calm.
       rewrite replace_middle, nth_error_middle.
       unfold perform. simpl. rewrite Calm.
       rewrite replace_middle, <- app_assoc. reflexivity. }
  reflexivity.
Qed.

Lemma schedule_ramp_step (e : engine) (i n : nat)
  (st : @world num * pool (value num)) :
  schedule e (ramp i (S n)) st
  = schedule e (ramp (S i) n) (resume e i (resume e i st)).
Proof. reflexivity. Qed.

Lemma ramp_opens (e : engine) (ep : string) (bodies : list (value num)) :
  (forall t, rejects e t = false) ->
  Forall compiles bodies ->
  forall (done : pool (value num)) (w : world),
  exists w' ts,
    schedule e (ramp (length done) (length bodies))
      (w, done ++ map (render_handler ep) bodies)%list
    = (w', (done ++ ts)%list)
    /\ length ts = length bodies
    /\ forallb pending ts = true
    /\ length (sessions w') = length (sessions w) + length bodies
    /\ length (tabs w') = length (tabs w) + length bodies.
Proof.
  intros Calm F. induction F as [|b bs Cb F IH]; intros done w.
  - exists w, []. simpl. repeat split; lia.
  - destruct (resume_twice e ep b w done (map (render_handler ep) bs)
                Calm Cb) as [m [Pm Em]].
    specialize (IH (done ++ [m])%list
      {| clock := 2 + clock w;
         sessions := clock w :: sessions w;
         tabs := S (clock w) :: tabs w;
         history := (history w ++ [Connected ep (clock w);
                                   Opened (clock w) (S (clock w))])%list |}).
    destruct IH as [w' [ts [Es [Lt [Pt [Ls Lp]]]]]].
    exists w', (m :: ts).
    rewrite length_app, Nat.add_comm in Es.
    change (length [m] + length done) with (S (length done)) in Es.
    rewrite <- !app_assoc in Es.
    change ([m] ++ map (render_handler ep) bs)%list
      with (m :: map (render_handler ep) bs) in Es.
    change ([m] ++ ts)%list with (m :: ts) in Es.
    change (length (b :: bs)) with (S (length bs)).
    change (map (render_handler ep) (b :: bs))
      with (render_handler ep b :: map (render_handler ep) bs).
    rewrite schedule_ramp_step, Em, Es.
    simpl in Ls, Lp. simpl. rewrite Pm, Pt.
    repeat split; lia.
Qed.

(** C2, as amended.  There is no pool and no bound.  Every request
    connects on its own: when the browser rejects nothing, any number of
    requests whose bodies compile can each hold a connection and an open
    page at the same time, none of them waiting for another and none of
    them failed. *)
Theorem no_pool_bound (e : engine) (ep : string)
  (bodies : list (value num)) :
  (forall t, rejects e t = false) ->
  Forall compiles bodies ->
  let st := schedule e (ramp 0 (length bodies))
              (empty_world, map (render_handler ep) bodies) in
  length (sessions (fst st)) = length bodies
  /\ length (tabs (fst st)) = length bodies
  /\ length (snd st) = length bodies
  /\ forallb pending (snd st) = true.
Proof.
  intros Calm F st. subst st.
  destruct (ramp_opens e ep bodies Calm F [] empty_world)
    as [w' [ts [Es [Lt [Pt [Ls Lp]]]]]].
  simpl in Es. rewrite Es. simpl in *. repeat split; assumption.
Qed.

End Runs.

(** ** The claims at concrete requests, over integers *)

(** C1, as stated, fails: the second call for the same document
    connects to the browser again, and its answer has no
    [content_hash]. *)
Lemma second_render_connects_again :
  let first := run (steady png) (render_handler local_endpoint click_me_doc)
                 empty_world in
  let second := run (steady png) (render_handler local_endpoint click_me_doc)
                  (snd first) in
  connections (history (snd first)) = 1
  /\ connections (history (snd second)) = 2
  /\ exists answer, fst second = Ok answer
                    /\ get answer "content_hash" = None.
Proof.
  vm_compute. repeat split. eexists. split; reflexivity.
Qed.

Lemma every_render_connects_witness :
  fst (run (steady png) (render_handler local_endpoint click_me_doc)
         (snd (run (steady png) (render_handler local_endpoint click_me_doc)
                 empty_world)))
  = Ok (response png).
Proof.
  refine (proj1 (proj2 (every_render_connects (steady png) local_endpoint
            click_me_doc _ empty_world (fun _ => eq_refl) _ eq_refl))).
  discriminate.
Defined.

(** C2, as stated, fails: six requests hold six connections and six
    open pages at once, one more than the pool of the specification
    would lend, and none of them has failed. *)
Lemma six_concurrent_sessions :
  let st := schedule (steady png) (ramp 0 6)
              (empty_world,
               map (render_handler local_endpoint) (repeat click_me_doc 6)) in
  length (sessions (fst st)) = 6
  /\ length (tabs (fst st)) = 6
  /\ forallb pending (snd st) = true.
Proof.
  vm_compute. repeat split.
Qed.

Lemma no_pool_bound_witness :
  length (tabs (fst (schedule (steady png) (ramp 0 7)
                       (empty_world,
                        map (render_handler local_endpoint)
                          (repeat click_me_doc 7))))) = 7.
Proof.
  refine (proj1 (proj2 (no_pool_bound (steady png) local_endpoint
            (repeat click_me_doc 7) (fun _ => eq_refl) _))).
  repeat constructor; try discriminate; eexists; reflexivity.
Defined.

(** C4, as stated, fails: the document of width 50 is not refused but
    rendered, in a viewport 50 wide. *)
Lemma narrow_canvas_rendered :
  let out := run (steady png) (render_handler local_endpoint (canvas 50 200)%Z)
               empty_world in
  fst out = Ok (response png)
  /\ In (ViewportSet 1 (VNum 50%Z) (VNum 200%Z)) (history (snd out)).
Proof.
  vm_compute. split; [reflexivity | auto 6].
Qed.

Lemma no_canvas_bounds_witness :
  fst (run (steady png) (render_handler local_endpoint (canvas 50 200)%Z)
         empty_world)
  = Ok (response png).
Proof.
  exact (proj1 (proj2 (no_canvas_bounds (steady png) local_endpoint 50%Z 200%Z
                         empty_world (fun _ => eq_refl)))).
Defined.

(** C7 at a browser that rejects [setContent]. *)
Lemma page_left_open_on_failure_witness :
  fst (run (failing_at 3 png) (render_handler local_endpoint click_me_doc)
         empty_world) = Throw BrowserError
  /\ tabs (snd (run (failing_at 3 png) (render_handler local_endpoint click_me_doc)
                  empty_world)) = [1].
Proof.
  refine (let P := page_left_open_on_failure (failing_at 3 png) local_endpoint
                     click_me_doc _ empty_world 3 _ eq_refl _ _ eq_refl
          in conj (proj1 P) (proj1 (proj2 P))).
  - discriminate.
  - lia.
  - intros j Hj. simpl.
    destruct j as [|[|[|j]]]; try reflexivity. lia.
Defined.

(** C5, as stated, fails: in what the button of the user guide is
    compiled to there is no [left:150px] and no [top:80px]. *)
Lemma click_me_not_at_layout_box :
  exists html,
    renderDSLtoHTML (request_document click_me_doc) = Ok html
    /\ occurrences "left:150px" html = 0
    /\ occurrences "top:80px" html = 0.
Proof.
  exists click_me_html. repeat split; vm_compute; reflexivity.
Qed.

(** C5, as amended: the button of the user guide, compiled as the
    handler compiles it.  The box is read from the element itself and
    the coordinates under [layout] are not read: the one button of the
    output is placed at the defaults, [left:0px] and [top:0px], with the
    default width and height, which are those of the example. *)
Theorem click_me_at_origin :
  renderDSLtoHTML (request_document click_me_doc) = Ok click_me_html
  /\ occurrences "<button" click_me_html = 1
  /\ occurrences "left:0px;" click_me_html = 1
  /\ occurrences "top:0px;" click_me_html = 1
  /\ occurrences "left:150px" click_me_html = 0
  /\ occurrences "top:80px" click_me_html = 0.
Proof.
  repeat split; vm_compute; reflexivity.
Qed.

(** The same button with its box written on the element itself is
    placed where the user guide says. *)
Lemma click_me_flat_placed :
  renderElement click_me_flat
  = Ok ("<button  style=" ++ dq ++ "position:absolute;" ++ nl ++
        "      left:150px;" ++ nl ++
        "      top:80px;" ++ nl ++
        "      width:100px;" ++ nl ++
        "      height:40px;" ++ dq ++ ">Click Me!</button>").
Proof. reflexivity. Qed.

End ServerFacts.

(* ================================================================== *)
(** * Further properties of renderHtml.js *)

Module RenderHtmlMore.
Import Js JsFacts RenderHtml RenderHtmlFacts.

Section Failures.
Context {num : Type} `{JsNumber num}.

(** Compilation throws nothing but [TypeError]. *)
Lemma to_string_throws (v : value num) (x : exn) :
  to_string v = Throw x -> x = TypeError.
Proof.
  revert x.
  induction v as [|b|n|s|items IH|props IH] using value_ind;
    intro x; simpl.
  - discriminate.
  - destruct b; discriminate.
  - discriminate.
  - discriminate.
  - revert x. induction IH as [|y rest Hy Hrest IHrest]; intro x;
      [discriminate|].
    assert (Ey : forall r, match y with VNull => Ok "" | _ => to_string y end
                           = Throw r -> r = TypeError).
    { intros r. destruct y; try discriminate; apply Hy. }
    destruct (match y with VNull => Ok "" | _ => to_string y end)
      as [sy|r] eqn:E; simpl.
    + destruct rest as [|z rest']; [discriminate|].
      match goal with |- context [bind ?m _] =>
        destruct m as [sr|r] eqn:Er end; simpl; [discriminate|].
      intros [= <-]. now apply IHrest.
    + intros [= <-]. now apply Ey.
  - destruct (get_own "toString" props); [now intros [= <-] | discriminate].
Qed.

Lemma to_string_opt_throws (o : option (value num)) (x : exn) :
  to_string_opt o = Throw x -> x = TypeError.
Proof.
  destruct o; simpl; [apply to_string_throws | discriminate].
Qed.

Lemma style_part_throws (el : value num) (p c sfx : string) (x : exn) :
  style_part el p c sfx = Throw x -> x = TypeError.
Proof.
  unfold style_part. destruct (truthy _); [|discriminate].
  destruct (to_string_opt _) eqn:E; simpl; [discriminate|].
  intros [= <-]. now apply to_string_opt_throws in E.
Qed.

Ltac throws_step :=
  match goal with
  | |- bind ?m _ = Throw _ -> _ =>
      let E := fresh "E" in
      destruct m eqn:E; simpl;
      [| intros [= <-];
         first [ now apply to_string_throws in E
               | now apply to_string_opt_throws in E
               | now apply style_part_throws in E ] ]
  end.

Lemma element_style_throws (el : value num) (x : exn) :
  element_style el = Throw x -> x = TypeError.
Proof.
  unfold element_style. repeat throws_step. discriminate.
Qed.

Lemma element_class_throws (el : value num) (x : exn) :
  element_class el = Throw x -> x = TypeError.
Proof.
  unfold element_class. destruct (truthy _); [|discriminate].
  throws_step. discriminate.
Qed.

Lemma renderElement_throws (el : value num) (x : exn) :
  renderElement el = Throw x -> x = TypeError.
Proof.
  destruct el; simpl; try (now intros [= <-]);
    (destruct (element_style _) eqn:Es; simpl;
     [| intros [= <-]; now apply element_style_throws in Es]);
    (destruct (element_class _) eqn:Ec; simpl;
     [| intros [= <-]; now apply element_class_throws in Ec]);
    repeat match goal with
           | |- (if ?c then _ else _) = Throw _ -> _ => destruct c
           end;
    try discriminate; throws_step; discriminate.
Qed.

Lemma map_render_throws (els : list (value num)) (x : exn) :
  map_render els = Throw x -> x = TypeError.
Proof.
  induction els as [|el rest IH]; simpl; [discriminate|].
  destruct (renderElement el) eqn:E; simpl.
  - destruct (map_render rest); simpl; [discriminate|].
    intros [= <-]. now apply IH.
  - intros [= <-]. now apply renderElement_throws in E.
Qed.

(** X7.  One element that cannot be rendered fails the whole document:
    when [renderElement] throws on any element of the array, [null]
    elements included, no body is produced at all and the outcome is a
    [TypeError]. *)
Theorem one_bad_element_fails_all (els : list (value num))
  (el : value num) (x : exn) :
  In el els ->
  renderElement el = Throw x ->
  render_body (Some (VArr els)) = Throw TypeError.
Proof.
  intros I E. simpl.
  assert (M : exists y, map_render els = Throw y).
  { induction els as [|a rest IH]; [contradiction|].
    simpl. destruct I as [->|I].
    - rewrite E. simpl. eauto.
    - destruct (renderElement a); simpl; [|eauto].
      destruct (IH I) as [y ->]. simpl. eauto. }
  destruct M as [y M]. rewrite M. simpl.
  now rewrite (map_render_throws _ _ M).
Qed.

End Failures.

Lemma one_bad_element_fails_all_witness :
  render_body (Some (VArr [inner_button; VNull; panel]))
  = Throw (A := string) TypeError.
Proof.
  refine (one_bad_element_fails_all [inner_button; VNull; panel]
            VNull TypeError _ eq_refl).
  simpl. auto.
Defined.

Section Reads.
Context {num : Type} `{JsNumber num}.

(** X8.  [renderElement] looks at nothing but the properties listed in
    [element_reads] and, under [style], those in [style_reads]: two
    elements that agree on them (and are both [null] or both not) render
    to the same outcome, whatever else they hold ([layout], [children],
    [id], other style properties, ...). *)
Theorem renders_from_reads_only (a b : value num) :
  (a = VNull <-> b = VNull) ->
  (forall k, In k element_reads -> get a k = get b k) ->
  (forall p, In p style_reads ->
             get_opt (get a "style") p = get_opt (get b "style") p) ->
  renderElement a = renderElement b.
Proof.
  intros N R S.
  assert (Es : element_style a = element_style b).
  { unfold element_style, style_part.
    rewrite (R "x"), (R "y"), (R "width"), (R "height")
      by (simpl; tauto).
    rewrite (S "background"), (S "color"), (S "fontSize"),
      (S "fontWeight") by (simpl; tauto).
    reflexivity. }
  assert (Ec : element_class a = element_class b).
  { unfold element_class. now rewrite (R "class") by (simpl; tauto). }
  assert (Et : forall n, has_type a n = has_type b n).
  { intro n. unfold has_type. now rewrite (R "type") by (simpl; tauto). }
  assert (El : get a "label" = get b "label") by (apply R; simpl; tauto).
  assert (Ex : get a "text" = get b "text") by (apply R; simpl; tauto).
  assert (Ep : get a "placeholder" = get b "placeholder")
    by (apply R; simpl; tauto).
  destruct N as [N1 N2].
  destruct a; destruct b;
    try discriminate (N1 eq_refl); try discriminate (N2 eq_refl);
    try reflexivity;
    unfold renderElement; rewrite Es, Ec, !Et, El, Ex, Ep; reflexivity.
Qed.


(** X10.  The texts that stand in for a falsy property.  For an element
    whose style and class attribute have been computed: a button whose
    [label] is absent or falsy (the empty string, [null], [false], [0])
    is labelled [Button], a text whose [text] is absent or falsy reads
    [Text], and an input whose [placeholder] is absent or falsy gets an
    empty placeholder. *)
Theorem fallback_texts (el : value num) (style cls : string) :
  el <> VNull ->
  element_style el = Ok style ->
  element_class el = Ok cls ->
  (has_type el "button" = true -> truthy (get el "label") = false ->
   renderElement el
   = Ok ("<button " ++ cls ++ " style=" ++ dq ++ style ++ dq
         ++ ">Button</button>"))
  /\ (has_type el "text" = true -> truthy (get el "text") = false ->
      renderElement el
      = Ok ("<div " ++ cls ++ " style=" ++ dq ++ style ++ dq
            ++ ">Text</div>"))
  /\ (has_type el "input" = true ->
      truthy (get el "placeholder") = false ->
      renderElement el
      = Ok ("<input " ++ cls ++ " style=" ++ dq ++ style ++ dq
            ++ " placeholder=" ++ dq ++ dq ++ " />")).
Proof.
  intros N Hs Hc.
  assert (D : forall o (d : value num),
             truthy o = false -> or_else o d = d).
  { intros o d T. unfold or_else. destruct o; [|reflexivity].
    now rewrite T. }
  repeat split.
  - intros Ht F.
    destruct el; try contradiction; unfold renderElement;
      rewrite Hs, Hc, Ht, (D _ _ F); reflexivity.
  - intros Ht F.
    pose proof (has_type_exclusive el "text" "button" Ht eq_refl) as Nb.
    destruct el; try contradiction; unfold renderElement;
      rewrite Hs, Hc, Nb, Ht, (D _ _ F); reflexivity.
  - intros Ht F.
    pose proof (has_type_exclusive el "input" "button" Ht eq_refl) as Nb.
    pose proof (has_type_exclusive el "input" "text" Ht eq_refl) as Nt.
    destruct el; try contradiction; unfold renderElement;
      rewrite Hs, Hc, Nb, Nt, Ht, (D _ _ F); reflexivity.
Qed.

End Reads.

Lemma renders_from_reads_only_witness :
  renderElement readme_button = renderElement readme_button_read.
Proof.
  refine (renders_from_reads_only readme_button readme_button_read _ _ _).
  - split; discriminate.
  - intros k I. simpl in I.
    repeat (destruct I as [<-|I]; [reflexivity|]). contradiction.
  - intros p I. simpl in I.
    repeat (destruct I as [<-|I]; [reflexivity|]). contradiction.
Defined.


Lemma fallback_texts_witness :
  renderElement bare_button
  = Ok ("<button  style=" ++ dq ++ "position:absolute;" ++ nl ++
        "      left:0px;" ++ nl ++
        "      top:0px;" ++ nl ++
        "      width:50%px;" ++ nl ++
        "      height:40px;" ++ dq ++ ">Button</button>").
Proof.
  refine (proj1 (fallback_texts bare_button _ _ _ eq_refl eq_refl)
            eq_refl eq_refl).
  discriminate.
Defined.

End RenderHtmlMore.

(* ================================================================== *)
(** * Further properties of server.js *)

Module ServerMore.
Import Js JsFacts RenderHtml RenderHtmlFacts RenderHtmlMore.
Import Server ServerFacts.

Section Outcomes.
Context {num : Type} `{JsNumber num}.

(** The document the handler compiles, read off the body. *)
Lemma compile_request (body : value num) :
  renderDSLtoHTML (request_document body)
  = (b <- render_body (Some (req_elements body)) ;;
     wd <- to_string (req_width body) ;;
     ht <- to_string (req_height body) ;;
     css <- to_string (req_css body) ;;
     Ok (html_head wd ht ++ css ++ html_tail b)).
Proof. reflexivity. Qed.

(** The handler either stops before its first call or is the chain of
    calls of [render_handler_compiled]. *)
Lemma render_handler_cases (ep : string) (body : value num) :
  (exists x, render_handler ep body = Fail x)
  \/ (exists html, body <> VNull
                   /\ renderDSLtoHTML (request_document body) = Ok html).
Proof.
  destruct (renderDSLtoHTML (request_document body)) as [html|x] eqn:C.
  - destruct body; try (right; exists html; split;
                        [discriminate | reflexivity]).
    left. eexists. reflexivity.
  - left. destruct body; unfold render_handler; rewrite ?C; eauto.
Qed.

(** X1.  A body that cannot be compiled never reaches the browser.  When
    the body is [null], when [elements] is given but is not an array
    ([null], a string, a number, an object), or when [renderElement]
    throws on one of the elements, the handler ends with a [TypeError]
    before [puppeteer.connect]: whatever the browser would do, no call is
    made and nothing is opened. *)
Theorem failed_compile_never_connects (e : engine) (ep : string)
  (body : value num) (w : world) :
  body = VNull
  \/ (exists v, get body "elements" = Some v /\ forall els, v <> VArr els)
  \/ (exists els el x, get body "elements" = Some (VArr els)
                       /\ In el els /\ renderElement el = Throw x) ->
  run e (render_handler ep body) w = (Throw TypeError, w).
Proof.
  intros [->|[[v [G N]]|[els [el [x [G [I E]]]]]]]; [reflexivity| |].
  - assert (C : renderDSLtoHTML (request_document body) = Throw TypeError).
    { rewrite compile_request. unfold req_elements, field. rewrite G.
      destruct v; try reflexivity. now destruct (N items). }
    destruct body; try discriminate G.
    unfold render_handler. rewrite C. reflexivity.
  - assert (C : renderDSLtoHTML (request_document body) = Throw TypeError).
    { rewrite compile_request. unfold req_elements, field. rewrite G.
      now rewrite (one_bad_element_fails_all els el x I E). }
    destruct body; try discriminate G.
    unfold render_handler. rewrite C. reflexivity.
Qed.

Ltac by_engine e :=
  simpl; unfold perform; simpl;
  repeat match goal with
         | |- context [rejects e ?t] => destruct (rejects e t); simpl
         end.

(** X2.  The handler never closes a connection ([browser.disconnect()]
    and [browser.close()] are not called anywhere).  Whatever the browser
    rejects, a run leaves every connection open that was open before,
    adds at most its own, and a run that answers always leaves its own
    connection open behind it. *)
Theorem connection_never_closed (e : engine) (ep : string)
  (body : value num) (w : world) :
  let out := run e (render_handler ep body) w in
  (sessions (snd out) = sessions w
   \/ sessions (snd out) = clock w :: sessions w)
  /\ (answered (fst out) = true ->
      sessions (snd out) = clock w :: sessions w).
Proof.
  destruct (render_handler_cases ep body) as [[x F]|[html [N C]]].
  - rewrite F. simpl. split; [now left | discriminate].
  - rewrite (render_handler_compiled ep body html N C).
    by_engine e; (split; [auto | try discriminate; auto]).
Qed.

(** X3.  A run touches no page but its own.  The page it opens is the
    one numbered [clock w + 1]; whatever the browser rejects, any other
    page is open after the run exactly when it was open before. *)
Theorem other_pages_untouched (e : engine) (ep : string)
  (body : value num) (w : world) (p : page) :
  p <> S (clock w) ->
  In p (tabs (snd (run e (render_handler ep body) w))) <-> In p (tabs w).
Proof.
  intro D.
  assert (W : In p (without (S (clock w)) (tabs w)) <-> In p (tabs w)).
  { unfold without. rewrite filter_In. split; [tauto|].
    intro I. split; [exact I|].
    apply negb_true_iff, Nat.eqb_neq, D. }
  destruct (render_handler_cases ep body) as [[x F]|[html [N C]]].
  - rewrite F. simpl. tauto.
  - rewrite (render_handler_compiled ep body html N C).
    by_engine e; try tauto; try (simpl; intuition congruence).
    rewrite Nat.eqb_refl. simpl. exact W.
Qed.

(** X5.  The defaults of the destructuring apply to a body that has
    none of [width], [height], [elements] and [css] (the empty object,
    but also an array): it is compiled to an empty page 800 by 600 with
    no custom CSS, and 800 and 600 are what the viewport is set to. *)
Theorem absent_members_default (body : value num) :
  body <> VNull ->
  get body "width" = None -> get body "height" = None ->
  get body "elements" = None -> get body "css" = None ->
  renderDSLtoHTML (request_document body)
  = Ok (html_head "800" "600" ++ "" ++ html_tail "")
  /\ req_width body = VNum (num_lit 800)
  /\ req_height body = VNum (num_lit 600).
Proof.
  intros N Gw Gh Ge Gc.
  rewrite compile_request.
  unfold req_width, req_height, req_elements, req_css, field.
  rewrite Gw, Gh, Ge, Gc. simpl.
  rewrite !num_lit_string by (vm_compute; discriminate).
  repeat split.
Qed.

(** X4.  Connections pile up.  When the browser rejects nothing and the
    bodies compile, answering them one after the other answers every one
    of them, takes six calls each, and leaves one more connection open
    per request; no page stays open when none was open at the start. *)
Theorem serve_leaves_connections (e : engine) (ep : string)
  (bodies : list (value num)) (w : world) :
  (forall t, rejects e t = false) ->
  Forall compiles bodies ->
  let out := serve e ep bodies w in
  length (fst out) = length bodies
  /\ forallb answered (fst out) = true
  /\ length (sessions (snd out)) = length (sessions w) + length bodies
  /\ clock (snd out) = clock w + 6 * length bodies
  /\ (tabs w = [] -> tabs (snd out) = []).
Proof.
  intros Calm F. revert w.
  induction F as [|b bs [N [html C]] F IH]; intro w.
  - simpl. repeat split; auto; lia.
  - simpl. rewrite (run_handler_ok e ep b html w Calm N C).
    specialize (IH
      {| clock := 6 + clock w;
         sessions := clock w :: sessions w;
         tabs := without (S (clock w)) (tabs w);
         history := (history w ++ trace ep b html (clock w))%list |}).
    destruct (serve e ep bs _) as [rs w2].
    simpl in IH. destruct IH as [L [A [S [K T]]]].
    simpl. rewrite L, A, S, K.
    repeat split; try lia.
    intro E. apply T. now rewrite E.
Qed.

End Outcomes.

Lemma failed_compile_never_connects_witness :
  run (failing_at 0 png) (render_handler local_endpoint holed_body)
    empty_world
  = (Throw TypeError, empty_world).
Proof.
  refine (failed_compile_never_connects (failing_at 0 png) local_endpoint
            holed_body empty_world _).
  right. right. exists [inner_button; VNull], VNull, TypeError.
  repeat split. simpl. auto.
Defined.

Lemma connection_never_closed_witness :
  sessions (snd (run (steady png)
                   (render_handler local_endpoint click_me_doc)
                   empty_world)) = [0].
Proof.
  exact (proj2 (connection_never_closed (steady png) local_endpoint
                  click_me_doc empty_world) eq_refl).
Defined.

Lemma other_pages_untouched_witness :
  In 7 (tabs (snd (run (failing_at 3 png)
                     (render_handler local_endpoint click_me_doc)
                     {| clock := 10; sessions := [6]; tabs := [7];
                        history := [] |})))
  <-> In 7 [7].
Proof.
  refine (other_pages_untouched (failing_at 3 png) local_endpoint
            click_me_doc
            {| clock := 10; sessions := [6]; tabs := [7];
               history := [] |} 7 _).
  simpl. lia.
Defined.

Lemma absent_members_default_witness :
  renderDSLtoHTML (request_document array_body)
  = Ok (html_head "800" "600" ++ "" ++ html_tail "").
Proof.
  refine (proj1 (absent_members_default array_body _
                   eq_refl eq_refl eq_refl eq_refl)).
  discriminate.
Defined.

Lemma serve_leaves_connections_witness :
  length (sessions (snd (serve (steady png) local_endpoint
                           (repeat click_me_doc 3) empty_world))) = 3.
Proof.
  refine (proj1 (proj2 (proj2 (serve_leaves_connections (steady png)
            local_endpoint (repeat click_me_doc 3) empty_world
            (fun _ => eq_refl) _)))).
  repeat constructor; try discriminate; eexists; reflexivity.
Defined.

End ServerMore.

(* ================================================================== *)
(** * Properties of the demo utilities *)

Module ProgressBarFacts.
Import Js DemoUtils.
Import QArith Qround.
Import ProgressBar.
Local Open Scope string_scope.

Lemma clamp_in_range (p : number) :
  p <> NaN -> in_range (math_max (Finite 0) (math_min (Finite 100) p)).
Proof.
  intro N. destruct p as [|q|[|]]; [contradiction| |simpl; split..].
  - simpl. destruct (Qle_bool 100 q) eqn:Hi; simpl.
    + split; [discriminate | apply Qle_refl].
    + assert (Lt : q < 100).
      { apply Qnot_le_lt. intro L. apply Qle_bool_iff in L. congruence. }
      destruct (Qle_bool 0 q) eqn:Lo; simpl.
      * split; [now apply Qle_bool_iff | now apply Qlt_le_weak].
      * split; [apply Qle_refl | discriminate].
  - discriminate.
  - apply Qle_refl.
  - apply Qle_refl.
  - discriminate.
Qed.

Lemma round_in_range (a : number) :
  in_range a ->
  exists n : Z, (0 <= n <= 100)%Z
                /\ integer_text (math_round a) = decimal n.
Proof.
  destruct a as [|q|b]; try contradiction. intros [Lo Hi].
  exists (Qfloor (q + (1 # 2))). split.
  - split.
    + change 0%Z with (Qfloor 0). apply Qfloor_resp_le.
      apply Qle_trans with q; [exact Lo|].
      rewrite <- (Qplus_0_r q) at 1. apply Qplus_le_r. discriminate.
    + change 100%Z with (Qfloor (100 + (1 # 2))). apply Qfloor_resp_le.
      now apply Qplus_le_l.
  - unfold math_round, integer_text. now rewrite Qfloor_Z.
Qed.

Section Bar.
Variable eta : number -> string.

(** What every call keeps true of a bar. *)
Definition steady_bar (b : bar) : Prop :=
  in_range (progress b)
  /\ whole_percentage (percent_text (view b))
  /\ (forall a, fill (view b) = Some a -> in_range a).

Lemma updateDisplay_steady (b : bar) :
  in_range (progress b) ->
  whole_percentage (percent_text (view b)) ->
  steady_bar (updateDisplay eta b).
Proof.
  intros R W. repeat split; simpl.
  - exact R.
  - destruct (showPercentage (opts b)); [|exact W].
    right. destruct (round_in_range _ R) as [n [B E]].
    exists n. split; [exact B | now rewrite E].
  - now intros a [= <-].
Qed.

Lemma apply_steady (b : bar) (c : call) :
  passes_number c -> steady_bar b -> steady_bar (apply eta b c).
Proof.
  intros P [R [W F]]. destruct c as [p m s t| | | |]; simpl.
  - apply updateDisplay_steady; simpl; [|exact W].
    apply clamp_in_range. now destruct p.
  - apply updateDisplay_steady; simpl; [|exact W].
    split; [apply Qle_refl | discriminate].
  - apply updateDisplay_steady; simpl; assumption.
  - apply updateDisplay_steady; simpl; [|exact W].
    split; [discriminate | apply Qle_refl].
  - repeat split; assumption.
Qed.

(** X11.  The bar never leaves the range.  Whatever options it was
    created with and whatever calls are made on it, as long as every
    [update] is given a number (anything but [NaN], the infinities
    included), the progress kept is between 0 and 100, so is the width
    written into the fill element, and the label is empty or a whole
    percentage between 0 and 100. *)
Theorem bar_stays_in_range (g : given_options) (calls : list call) :
  Forall passes_number calls ->
  let b := drive eta (create g) calls in
  in_range (progress b)
  /\ whole_percentage (percent_text (view b))
  /\ (forall a, fill (view b) = Some a -> in_range a).
Proof.
  intro F.
  assert (S0 : steady_bar (create g)).
  { split; [|split].
    - simpl. split; [apply Qle_refl | discriminate].
    - now left.
    - discriminate. }
  unfold drive. revert S0. generalize (create g).
  induction F as [|c rest Pc F IH]; intros b Sb; [exact Sb|].
  simpl. apply IH. now apply apply_steady.
Qed.

(** X12.  Only [clearState] takes the state classes away.  Through any
    calls other than [clearState] ([reset] included) a bar that carries
    the [error] class keeps it, and one that carries [success] keeps it;
    so a bar on which [setError] was followed by [setSuccess] carries
    both. *)
Theorem classes_stay_until_cleared (b : bar) (calls : list call) :
  existsb clears calls = false ->
  (error_class b = true -> error_class (drive eta b calls) = true)
  /\ (success_class b = true -> success_class (drive eta b calls) = true).
Proof.
  unfold drive. revert b.
  induction calls as [|c rest IH]; intros b E; [split; auto|].
  simpl in E. apply orb_false_elim in E as [Ec Er].
  simpl. destruct (IH (apply eta b c) Er) as [I1 I2].
  split; intro T; [apply I1 | apply I2];
    destruct c; simpl; try discriminate Ec; auto.
Qed.

End Bar.

Lemma bar_stays_in_range_witness :
  in_range
    (progress
       (drive (fun _ => "soon") (create no_options)
          [Update (Finite 250) (Some "half way") None None;
           Update (Infinite false) None None None;
           SetSuccess "done";
           Update (Finite (7 # 2)) None None None])).
Proof.
  refine (proj1 (bar_stays_in_range (fun _ => "soon") no_options _ _)).
  repeat constructor.
Defined.

Lemma classes_stay_until_cleared_witness :
  error_class
    (drive (fun _ => "soon")
       (setError (fun _ => "soon") (create no_options) "failed")
       [Reset; Update (Finite 10) None None None; SetSuccess "done"])
  = true.
Proof.
  exact (proj1 (classes_stay_until_cleared (fun _ => "soon")
                  (setError (fun _ => "soon") (create no_options) "failed")
                  [Reset; Update (Finite 10) None None None;
                   SetSuccess "done"] eq_refl) eq_refl).
Defined.

End ProgressBarFacts.

Module EventLoggerFacts.
Import Js DemoUtils.
Import EventLogger.

Section Logger.
Variable moment : Type.
Variable detail : Type.
Variable stringifies : detail -> bool.

Abbreviation logger := (logger moment detail).
Abbreviation call := (call moment detail).

Lemma firstn_cons_firstn {A : Type} (n : nat) (x : A) (l : list A) :
  firstn n (x :: firstn n l) = firstn n (x :: l).
Proof.
  destruct n; [reflexivity|].
  change (x :: firstn n (firstn (S n) l) = x :: firstn n l).
  f_equal. rewrite firstn_firstn. f_equal. lia.
Qed.

Lemma forallb_firstn {A : Type} (f : A -> bool) (n : nat) (l : list A) :
  forallb f l = true -> forallb f (firstn n l) = true.
Proof.
  revert n. induction l as [|x l IH]; intros [|n] E; simpl; auto.
  simpl in E. apply andb_true_iff in E as [Ex El].
  rewrite Ex. now apply IH.
Qed.

(** Rendering changes neither the events nor the options, whether it
    throws or not. *)
Lemma renderEvents_events (lg : logger) :
  events (snd (renderEvents stringifies lg)) = events lg
  /\ opts (snd (renderEvents stringifies lg)) = opts lg.
Proof.
  unfold renderEvents. now destruct (renderable stringifies (events lg)).
Qed.

(** With a limit that is not negative, what is kept of the list with
    the new entry put in front is its first [maxEvents]. *)
Lemma kept_firstn {A : Type} (m : Z) (l : list A) :
  (0 <= m)%Z ->
  (if (Z.of_nat (length l) >? m)%Z then slice_to m l else l)
  = firstn (Z.to_nat m) l.
Proof.
  intro M. destruct (Z.gtb_spec (Z.of_nat (length l)) m) as [G|L].
  - unfold slice_to.
    destruct (Z.ltb_spec m 0) as [?|_]; [lia|].
    now rewrite Z.min_l by lia.
  - symmetry. apply firstn_all2. lia.
Qed.

Lemma log_events (lg : logger) (now : moment) (lv msg : string)
  (d : option detail) (ty : option string) :
  (0 <= maxEvents (opts lg))%Z ->
  includes lv (filterLevels (opts lg)) = true ->
  events (snd (log stringifies lg now lv msg d ty))
  = firstn (Z.to_nat (maxEvents (opts lg)))
      ({| stamp := now; level := lv; message := msg; data := d;
          eventType := ty |} :: events lg).
Proof.
  intros M I. unfold log. rewrite I.
  rewrite (proj1 (renderEvents_events _)). cbn [events].
  now apply kept_firstn.
Qed.

Lemma apply_bounded (lg : logger) (c : call) :
  (Z.of_nat (length (events lg)) <= Z.max 0 (maxEvents (opts lg)))%Z ->
  (Z.of_nat (length (events (snd (apply stringifies lg c))))
   <= Z.max 0 (maxEvents (opts lg)))%Z
  /\ opts (snd (apply stringifies lg c)) = opts lg.
Proof.
  intros B. destruct c as [now lv msg d ty|]; cbn [apply].
  - unfold log. destruct (includes lv _); [|auto].
    rewrite !(proj1 (renderEvents_events _)),
            !(proj2 (renderEvents_events _)).
    cbn [events opts]. split; [|reflexivity].
    destruct (Z.gtb_spec (Z.of_nat (length
      ({| stamp := now; level := lv; message := msg; data := d;
          eventType := ty |} :: events lg))) (maxEvents (opts lg)))
      as [G|L]; cbn [length] in *; [|lia].
    unfold slice_to. rewrite length_firstn. cbn [length].
    destruct (Z.ltb_spec (maxEvents (opts lg)) 0); lia.
  - unfold clear.
    rewrite (proj1 (renderEvents_events _)),
            (proj2 (renderEvents_events _)).
    cbn [events opts length]. split; [lia | reflexivity].
Qed.

(** A logger whose page shows the events it holds, all of them events
    that can be rendered. *)
Definition fresh (lg : logger) : Prop :=
  shown lg = events lg /\ renderable stringifies (events lg) = true.

Lemma renderEvents_fresh (lg : logger) :
  renderable stringifies (events lg) = true ->
  fst (renderEvents stringifies lg) = Ok tt
  /\ fresh (snd (renderEvents stringifies lg)).
Proof.
  intro R. unfold renderEvents. rewrite R. simpl.
  split; [reflexivity | split; [reflexivity | exact R]].
Qed.

Lemma apply_fresh (lg : logger) (c : call) :
  stringifiable stringifies c -> fresh lg ->
  fst (apply stringifies lg c) = Ok tt
  /\ fresh (snd (apply stringifies lg c)).
Proof.
  intros P [S R]. destruct c as [now lv msg d ty|]; cbn [apply].
  - unfold log. destruct (includes lv _); [|split; [reflexivity|]].
    + apply renderEvents_fresh. cbn [events].
      assert (Rn : renderable stringifies
                     ({| stamp := now; level := lv; message := msg;
                         data := d; eventType := ty |} :: events lg)
                   = true).
      { unfold renderable in *. simpl. rewrite R.
        destruct d; simpl in *; [now rewrite P | reflexivity]. }
      destruct (_ >? _)%Z; [|exact Rn].
      unfold slice_to, renderable. now apply forallb_firstn.
    + now split.
  - unfold clear. now apply renderEvents_fresh.
Qed.


(** A [log] call whose data [JSON.stringify] throws on ends with the
    exception, after the event has been stored: with room for at least
    one event the new entry is in front of the events held, and the page
    shows what it showed before. *)
Lemma log_throw_leaves_page (lg : logger) (now : moment)
  (lv msg : string) (d : detail) (ty : option string) :
  (0 < maxEvents (opts lg))%Z ->
  includes lv (filterLevels (opts lg)) = true ->
  stringifies d = false ->
  let out := log stringifies lg now lv msg (Some d) ty in
  fst out = Throw TypeError
  /\ shown (snd out) = shown lg
  /\ hd_error (events (snd out))
     = Some {| stamp := now; level := lv; message := msg;
               data := Some d; eventType := ty |}.
Proof.
  intros M I S out. subst out.
  unfold log. rewrite I, kept_firstn by lia.
  destruct (Z.to_nat (maxEvents (opts lg))) as [|n] eqn:N; [lia|].
  cbn [firstn]. unfold renderEvents, renderable. cbn [events forallb data].
  rewrite S. simpl. repeat split.
Qed.

Lemma accepted_app (o : options) (a b : list call) :
  accepted o (a ++ b)
  = (accepted o a ++ accepted o b)%list.
Proof.
  induction a as [|[now lv msg d ty|] rest IH]; simpl; [reflexivity| |].
  - destruct (includes lv _); simpl; now rewrite IH.
  - exact IH.
Qed.

Lemma drive_opts (lg : logger) (calls : list call) :
  opts (drive stringifies lg calls) = opts lg.
Proof.
  unfold drive. revert lg.
  induction calls as [|c rest IH]; intro lg; [reflexivity|].
  cbn [fold_left]. rewrite IH. destruct c; cbn [apply].
  - unfold log. destruct (includes _ _); [|reflexivity].
    now rewrite (proj2 (renderEvents_events _)).
  - unfold clear. now rewrite (proj2 (renderEvents_events _)).
Qed.

(** X14.  The log holds the latest events, newest first.  With a limit
    that is not negative, after any list of [log] calls a new logger
    holds the entries that passed the level filter, in the reverse of
    the order they were logged in, cut to the first [maxEvents]: the
    newest entry is in front and the oldest ones are the ones dropped. *)
Theorem log_keeps_latest (o : options) (calls : list call) :
  (0 <= maxEvents o)%Z ->
  only_logs calls ->
  events (drive stringifies (create o) calls)
  = firstn (Z.to_nat (maxEvents o))
      (rev (accepted o calls)).
Proof.
  intros M. induction calls as [|c calls IH] using rev_ind; intro L.
  - simpl. now rewrite firstn_nil.
  - apply Forall_app in L as [L Lc].
    specialize (IH L).
    unfold drive in *. rewrite fold_left_app. simpl.
    rewrite accepted_app, rev_app_distr.
    pose proof (drive_opts (create o) calls) as O.
    unfold drive in O. simpl in O.
    destruct c as [now lv msg d ty|]; [|now inversion Lc].
    simpl. destruct (includes lv (filterLevels o)) eqn:I.
    + rewrite log_events by (rewrite O; assumption).
      rewrite O, IH. simpl. apply firstn_cons_firstn.
    + unfold log. rewrite O, I. simpl. exact IH.
Qed.

End Logger.


(** The page one event behind: the second call throws on its data, the
    event is held and the page still shows the first alone. *)
Lemma page_one_event_behind :
  map message (events (drive not_thirteen (create default_options)
                         thirteen_logs)) = ["second"; "first"]
  /\ map message (shown (drive not_thirteen (create default_options)
                           thirteen_logs)) = ["first"].
Proof. split; reflexivity. Qed.

Lemma log_keeps_latest_witness :
  map message
    (events (drive (fun _ => true) (create two_of_info_error) four_logs))
  = ["fourth"; "third"].
Proof.
  refine (f_equal (map message)
            (log_keeps_latest nat unit (fun _ => true)
               two_of_info_error four_logs _ _)).
  - simpl. lia.
  - repeat constructor; discriminate.
Defined.

End EventLoggerFacts.
